(** * ResourceD agent: single-run execution, local store and dispatch loop

    A shallow embedding of package [agent] (type [Agent] and its methods)
    together with the narrow interfaces it consumes: the reader and writer
    task contracts, the task registries, the JSON codec, external command
    execution, the host-identity snapshot and the embedded key-value store.

    Conventions.
    - Go strings and byte slices are Rocq strings (sequences of bytes); the
      nil slice is the empty string, the nil map the empty map.
    - A Go [error] is carried by its message ([err.Error()]); [None] is the
      nil error.
    - A function returning [([]byte, error)] is a pair, because callers pass
      both components on ([Run] returns the output next to the error); a
      function returning a pointer or an interface next to an error is a
      two-constructor result, the pointer being used only when the error is
      nil.
    - What lives outside the package (encoding/json, libprocess, the clock,
      the host snapshot, the store's transaction outcome, the registered
      collectors) is a field of the record [World], and every definition is
      parameterised by it. *)

From Stdlib Require Import ZArith String Ascii List.
From Stdlib Require Import Floats.PrimFloat.
From stdpp Require Import base option gmap strings list sorting pretty.

Set Warnings "-register-all".

Local Open Scope string_scope.

(** ** Go values *)

Abbreviation error := string (only parsing).
Abbreviation bytes := string (only parsing).

(** Result of a Go function returning a pointer (or an interface) and an
    error. *)
Inductive result (A : Type) : Type :=
  | Ok (a : A)
  | Err (e : error).
Arguments Ok {A} a.
Arguments Err {A} e.

(** [resourced_host.Host], as far as the agent touches it: [hostData] sets
    [Tags]; the remaining fields are filled by the host package. *)
Record Host := mkHost {
  HostName : string;
  HostTags : list string;
}.

(** The dynamic values the agent stores under [interface{}]: what
    [json.Unmarshal] produces (nil, bool, float64, string, slice, map) and
    what [commonData] and [saveRun] put into a record (int64, string, [*Host],
    map). *)
Inductive any : Type :=
  | ANil
  | ABool (b : bool)
  | AFloat64 (f : float)
  | AInt64 (z : Z)
  | AStr (s : string)
  | AHost (h : Host)
  | ASlice (l : list any)
  | AMap (m : gmap string any).

(** A [map[string]string] seen as a value to marshal. *)
Definition any_of_strmap (m : gmap string string) : any := AMap (AStr <$> m).

(** ** Configuration ([resourced_config.Config], the fields the agent reads) *)

Record Config := mkConfig {
  Command : string;
  GoStruct : string;
  Path : string;
  Interval : string;
  Kind : string;
  ReaderPaths : list string;
}.

Definition set_Interval (v : string) (c : Config) : Config :=
  {| Command := Command c; GoStruct := GoStruct c; Path := Path c;
     Interval := v; Kind := Kind c; ReaderPaths := ReaderPaths c |}.

(** ** Task contracts *)

Module readers.

(** [IReader]: an interface value is a receiver with its method set. *)
Record IReader := mkIReader {
  state : Type;
  self : state;
  Run_method : state → state * option error;
  ToJson_method : state → bytes * option error;
}.

(** [r.Run()]: the receiver after the call, and the error. *)
Definition Run (r : IReader) : IReader * option error :=
  let '(s, err) := Run_method r (self r) in
  (mkIReader (state r) s (Run_method r) (ToJson_method r), err).

(** [r.ToJson()] *)
Definition ToJson (r : IReader) : bytes * option error :=
  ToJson_method r (self r).

Definition ErrUndefined : error := "GoStruct is undefined.".

(** Modelled from the spec: the reader registry and
    [readers.NewGoStructByConfig], which are not part of the agent package.
    The registry maps a task-type identifier to a zero-argument constructor;
    lookup of an unregistered identifier is a construction error. *)
Definition NewGoStructByConfig (readerConstructors : gmap string (unit → IReader))
    (config : Config) : result IReader :=
  match readerConstructors !! GoStruct config with
  | Some constructor => Ok (constructor tt)
  | None => Err ErrUndefined
  end.

End readers.

Module writers.

(** [IWriter]: the reader contract plus the upstream-data accessors. *)
Record IWriter := mkIWriter {
  state : Type;
  self : state;
  Run_method : state → state * option error;
  ToJson_method : state → bytes * option error;
  GetJsonProcessor_method : state → string;
  GetReadersData_method : state → gmap string any;
  SetReadersData_method : gmap string any → state → state;
  SetReadersDataInBytes_method : gmap string bytes → state → state;
}.

Definition with_self (w : IWriter) (s : state w) : IWriter :=
  mkIWriter (state w) s (Run_method w) (ToJson_method w)
    (GetJsonProcessor_method w) (GetReadersData_method w)
    (SetReadersData_method w) (SetReadersDataInBytes_method w).

Definition GetJsonProcessor (w : IWriter) : string :=
  GetJsonProcessor_method w (self w).
Definition GetReadersData (w : IWriter) : gmap string any :=
  GetReadersData_method w (self w).
Definition SetReadersData (d : gmap string any) (w : IWriter) : IWriter :=
  with_self w (SetReadersData_method w d (self w)).
Definition SetReadersDataInBytes (d : gmap string bytes) (w : IWriter) : IWriter :=
  with_self w (SetReadersDataInBytes_method w d (self w)).

(** "Note that IWriter also implements IReader". *)
Definition as_reader (w : IWriter) : readers.IReader :=
  readers.mkIReader (state w) (self w) (Run_method w) (ToJson_method w).

Definition ErrUndefined : error := "GoStruct is undefined.".

(** Modelled from the spec: the writer registry and
    [writers.NewGoStructByConfig], which are not part of the agent package
    (see [readers.NewGoStructByConfig]). *)
Definition NewGoStructByConfig (writerConstructors : gmap string (unit → IWriter))
    (config : Config) : result IWriter :=
  match writerConstructors !! GoStruct config with
  | Some constructor => Ok (constructor tt)
  | None => Err ErrUndefined
  end.

End writers.

(** ** External collaborators *)

(** [libprocess.NewCmd(command)] with its [Stdin] field. *)
Record Cmd := mkCmd {
cmd_line : string;
Stdin : option bytes;
}.

Record World := mkWorld {
(** [time.Now().UnixNano()] *)
time_Now_UnixNano : Z;
(** [resourced_host.NewHostByHostname()] *)
NewHostByHostname : result Host;
(** [cmd.Output()]: captured standard output, and the error of a spawn
    failure or a non-zero exit. *)
cmd_Output : Cmd → bytes * option error;
(** [json.Marshal(v)] *)
json_Marshal : any → bytes * option error;
(** [json.Unmarshal(data, &v)] for [v] of type [interface{}] *)
json_Unmarshal : bytes → any * option error;
(** [json.Unmarshal(data, &m)] for [m] of type [map[string]interface{}],
    empty or nil before the call *)
json_Unmarshal_map : bytes → gmap string any * option error;
(** the error, if any, of the [Db.Update] transaction putting a value
    under a key *)
Db_Update_Put_err : string → bytes → option error;
(** the reader and writer registries, filled at process start *)
readerConstructors : gmap string (unit → readers.IReader);
writerConstructors : gmap string (unit → writers.IWriter);
}.

(** ** The agent *)

Module Agent.

(** [Agent]: the store ([Db], the single bucket "resources") and [Tags]. *)
Record Agent := mkAgent {
  Db : gmap string bytes;
  Tags : list string;
}.

(** The argument of the prefix helpers has type [interface{}]. *)
Inductive prefix_input : Type :=
  | InConfig (v : Config)
  | InString (v : string)
  | InOther.

Definition pathWithReaderOrWriterPrefix (rOrW : string) (input : prefix_input) : string :=
  let prefix := "/" +:+ rOrW in
  match input with
  | InConfig v => prefix +:+ Path v
  | InString v =>
      if String.prefix (prefix +:+ "/") v then v else prefix +:+ v
  | InOther => ""
  end.

Definition pathWithReaderPrefix (input : prefix_input) : string :=
  pathWithReaderOrWriterPrefix "r" input.

Definition pathWithWriterPrefix (input : prefix_input) : string :=
  pathWithReaderOrWriterPrefix "w" input.

Definition pathWithPrefix (config : Config) : string :=
  if decide (Kind config = "reader") then pathWithReaderPrefix (InConfig config)
  else if decide (Kind config = "writer") then pathWithWriterPrefix (InConfig config)
  else Path config.

(** [GetRunByPath]: bolt's [Get] yields nil for a key that is not set; the
    error is always nil. *)
Definition GetRunByPath (a : Agent) (path : string) : bytes * option error :=
  (default "" (Db a !! path), None).

Definition GetRun (a : Agent) (config : Config) : bytes * option error :=
  GetRunByPath a (pathWithPrefix config).

Section run.

Context (w : World).

(** The readers data a shell-out writer is fed: for each reader path, the
    stored bytes decoded as JSON; an entry is made only when decoding
    succeeds. *)
Definition runCommand_readersData (a : Agent) (config : Config) : gmap string any :=
  foldl
    (λ readersData readerPath,
       let '(readerJsonBytes, err) :=
         GetRunByPath a (pathWithReaderPrefix (InString readerPath)) in
       match err with
       | None =>
           let '(data, err) := json_Unmarshal w readerJsonBytes in
           match err with
           | None => <[readerPath := data]> readersData
           | Some _ => readersData
           end
       | Some _ => readersData
       end)
    ∅ (ReaderPaths config).

(** [runCommand] shells out an external program and returns its output. *)
Definition runCommand (a : Agent) (config : Config) : bytes * option error :=
  let cmd := mkCmd (Command config) None in
  if decide (Kind config = "writer") then
    let readersData := runCommand_readersData a config in
    let '(readersDataJsonBytes, err) := json_Marshal w (AMap readersData) in
    match err with
    | Some e => ("", Some e)
    | None => cmd_Output w (mkCmd (cmd_line cmd) (Some readersDataJsonBytes))
    end
  else cmd_Output w cmd.

(** [processJson] pipes the writer's readers data through its JSON
    processor; the writer is returned as it is after the call. *)
Definition processJson (config : Config) (writer : writers.IWriter)
    : option error * writers.IWriter :=
  let processorPath := writers.GetJsonProcessor writer in
  if decide (processorPath = "") then (None, writer)
  else
    let cmd := mkCmd processorPath None in
    let readersData := writers.GetReadersData writer in
    let '(readersDataJsonBytes, err) := json_Marshal w (AMap readersData) in
    match err with
    | Some e => (Some e, writer)
    | None =>
        let cmd := mkCmd (cmd_line cmd) (Some readersDataJsonBytes) in
        let '(newJsonDataBytes, err) := cmd_Output w cmd in
        match err with
        | Some e => (Some e, writer)
        | None =>
            let '(newJsonData, err) := json_Unmarshal_map w newJsonDataBytes in
            match err with
            | Some e => (Some e, writer)
            | None => (err, writers.SetReadersData newJsonData writer)
            end
        end
    end.

Definition initGoStructReader (a : Agent) (config : Config) : result readers.IReader :=
  readers.NewGoStructByConfig (readerConstructors w) config.

(** The raw readers data an in-process writer is handed: for each reader
    path, the bytes [GetRunByPath] returned. *)
Definition initGoStructWriter_readersData (a : Agent) (config : Config) : gmap string bytes :=
  foldl
    (λ readersData readerPath,
       let '(readerJsonBytes, err) :=
         GetRunByPath a (pathWithReaderPrefix (InString readerPath)) in
       match err with
       | None => <[readerPath := readerJsonBytes]> readersData
       | Some _ => readersData
       end)
    ∅ (ReaderPaths config).

Definition initGoStructWriter (a : Agent) (config : Config) : result writers.IWriter :=
  match writers.NewGoStructByConfig (writerConstructors w) config with
  | Err e => Err e
  | Ok writer =>
      let readersData := initGoStructWriter_readersData a config in
      Ok (writers.SetReadersDataInBytes readersData writer)
  end.

(** [runGoStruct] executes a reader or writer and returns the output. *)
Definition runGoStruct (readerOrWriter : readers.IReader) : bytes * option error :=
  let '(readerOrWriter, err) := readers.Run readerOrWriter in
  match err with
  | Some e =>
      let errData : gmap string string := ∅ in
      let errData := <["Error" := e]> errData in
      json_Marshal w (any_of_strmap errData)
  | None => readers.ToJson readerOrWriter
  end.

Definition runGoStructReader (a : Agent) (config : Config) : bytes * option error :=
  match initGoStructReader a config with
  | Err e => ("", Some e)
  | Ok reader => runGoStruct reader
  end.

Definition runGoStructWriter (a : Agent) (config : Config) : bytes * option error :=
  match initGoStructWriter a config with
  | Err e => ("", Some e)
  | Ok writer =>
      let '(err, writer) := processJson config writer in
      match err with
      | Some e => ("", Some e)
      | None => runGoStruct (writers.as_reader writer)
      end
  end.

(** [commonData] gathers common information for every reader and writer. *)
Definition commonData (config : Config) : gmap string any :=
  let record : gmap string any := ∅ in
  let record := <["UnixNano" := AInt64 (time_Now_UnixNano w)]> record in
  let record := <["Path" := AStr (Path config)]> record in
  let config :=
    if decide (Interval config = "") then set_Interval "1m" config else config in
  let record := <["Interval" := AStr (Interval config)]> record in
  let record :=
    if decide (Command config ≠ "")
    then <["Command" := AStr (Command config)]> record else record in
  let record :=
    if decide (GoStruct config ≠ "")
    then <["GoStruct" := AStr (GoStruct config)]> record else record in
  record.

(** [hostData] builds host related information. *)
Definition hostData (a : Agent) : result Host :=
  match NewHostByHostname w with
  | Err e => Err e
  | Ok host => Ok (mkHost (HostName host) (Tags a))
  end.

(** [saveRun] gathers basic, host and reader/writer information and saves
    them into the local storage. *)
Definition saveRun (a : Agent) (config : Config) (output : bytes) : option error * Agent :=
  if decide (Path config = "") then (None, a)
  else
    let record := commonData config in
    match hostData a with
    | Err e => (Some e, a)
    | Ok host =>
        let record := <["Host" := AHost host]> record in
        let '(runData, err) := json_Unmarshal_map w output in
        match err with
        | Some e => (Some e, a)
        | None =>
            let record := <["Data" := AMap runData]> record in
            let '(recordInJson, err) := json_Marshal w (AMap record) in
            match err with
            | Some e => (Some e, a)
            | None =>
                match Db_Update_Put_err w (pathWithPrefix config) recordInJson with
                | Some e => (Some e, a)
                | None =>
                    (None,
                     mkAgent (<[pathWithPrefix config := recordInJson]> (Db a)) (Tags a))
                end
            end
        end
    end.

(** The dispatch of [Run]: which executor produces [(output, err)]. *)
Definition Run_dispatch (a : Agent) (config : Config) : bytes * option error :=
  if decide (Command config ≠ "") then runCommand a config
  else if decide (GoStruct config ≠ "" ∧ Kind config = "reader")
  then runGoStructReader a config
  else if decide (GoStruct config ≠ "" ∧ Kind config = "writer")
  then runGoStructWriter a config
  else ("", None).

(** [Run] executes a reader/writer config and saves its data in the local
    db. The result is [(output, err)] and the agent after the call. *)
Definition Run (a : Agent) (config : Config) : (bytes * option error) * Agent :=
  let '(output, err) := Run_dispatch a config in
  match err with
  | Some e => ((output, Some e), a)
  | None =>
      let '(err, a) := saveRun a config output in
      ((output, err), a)
  end.

End run.

End Agent.

(** ** The dispatch loop

    [RunForever] and [RunAllForever] as a labelled transition system over
    the goroutines of the process. A goroutine is where its control stands
    in [RunAllForever] together with the local [quitChans] table; the call
    [a.RunForever(config, quit)] is an ordinary call, so control moves into
    the loop of [RunForever] and remembers where the caller resumes. Channels
    are unbuffered: a send and a receive on one channel proceed together, in
    two different goroutines. *)

Module Dispatch.

Record ConfigStorage := mkConfigStorage {
  Readers : list Config;
  Writers : list Config;
}.

Definition chan := nat.

Inductive control : Type :=
  (** at [case configStorage := <-a.configStorageChan] *)
  | AtSelect
  (** in [for _, quitChan := range quitChans], before [quitChan <- true] on
      the head of [pending] *)
  | RangeQuitChans (pending : list chan) (configStorage : ConfigStorage)
  (** in [for _, config := range configStorage.Readers] *)
  | RangeReaders (rest : list Config) (configStorage : ConfigStorage)
  (** in [for _, config := range configStorage.Writers] *)
  | RangeWriters (rest : list Config)
  (** inside the call [a.RunForever(config, quit)], at its [select] *)
  | InRunForever (config : Config) (quit : chan) (caller : control).

Record goroutine := mkGoroutine {
  ctl : control;
  quitChans : gmap string chan;
}.

Record system := mkSystem {
  pool : list goroutine;
  (** number of channels made so far; the next [make(chan bool)] yields it *)
  chans : nat;
}.

Inductive event : Type :=
  (** a configuration set is received and becomes [a.ConfigStorage] *)
  | EvConfig (configStorage : ConfigStorage)
  (** [quitChans[path] = make(chan bool)] followed by the call of
      [RunForever] with that channel *)
  | EvLoop (config : Config) (quit : chan)
  (** the default branch of [RunForever]: [a.Run(config)], then the sleep *)
  | EvRun (config : Config)
  (** [quitChan <- true] meets [<-quit]: the loop returns *)
  | EvQuit (quit : chan)
  (** a range loop is exhausted *)
  | EvNext.

(** The steps one goroutine takes on its own; [fresh] is the channel the
    next [make] yields. *)
Inductive local_step (fresh : chan) : goroutine → event → goroutine → Prop :=
  | step_receive_signal g configStorage pending :
      ctl g = AtSelect →
      size (quitChans g) > 0 →
      pending ≡ₚ (map_to_list (quitChans g)).*2 →
      local_step fresh g (EvConfig configStorage)
        (mkGoroutine (RangeQuitChans pending configStorage) (quitChans g))
  | step_receive g configStorage :
      ctl g = AtSelect →
      size (quitChans g) = 0 →
      local_step fresh g (EvConfig configStorage)
        (mkGoroutine (RangeReaders (Readers configStorage) configStorage) (quitChans g))
  | step_signalled g configStorage :
      ctl g = RangeQuitChans [] configStorage →
      local_step fresh g EvNext
        (mkGoroutine (RangeReaders (Readers configStorage) configStorage) (quitChans g))
  | step_reader g config rest configStorage :
      ctl g = RangeReaders (config :: rest) configStorage →
      local_step fresh g (EvLoop config fresh)
        (mkGoroutine (InRunForever config fresh (RangeReaders rest configStorage))
           (<[Path config := fresh]> (quitChans g)))
  | step_readers_done g configStorage :
      ctl g = RangeReaders [] configStorage →
      local_step fresh g EvNext
        (mkGoroutine (RangeWriters (Writers configStorage)) (quitChans g))
  | step_writer g config rest :
      ctl g = RangeWriters (config :: rest) →
      local_step fresh g (EvLoop config fresh)
        (mkGoroutine (InRunForever config fresh (RangeWriters rest))
           (<[Path config := fresh]> (quitChans g)))
  | step_writers_done g :
      ctl g = RangeWriters [] →
      local_step fresh g EvNext (mkGoroutine AtSelect (quitChans g)).

(** [g] is blocked in [quitChan <- true] on [quit]. *)
Definition sending_on (quit : chan) (g : goroutine) : Prop :=
  ∃ rest configStorage, ctl g = RangeQuitChans (quit :: rest) configStorage.

Definition chans_after (ev : event) (n : nat) : nat :=
  match ev with
  | EvLoop _ _ => S n
  | _ => n
  end.

Inductive step : system → event → system → Prop :=
  | step_local s i g ev g' :
      pool s !! i = Some g →
      local_step (chans s) g ev g' →
      step s ev (mkSystem (<[i := g']> (pool s)) (chans_after ev (chans s)))
  (** [select] takes [default] only when no send on [quit] is ready *)
  | step_default s i g config quit caller :
      pool s !! i = Some g →
      ctl g = InRunForever config quit caller →
      (∀ j g', pool s !! j = Some g' → ¬ sending_on quit g') →
      step s (EvRun config) s
  | step_quit s i j gi gj quit rest configStorage config caller :
      i ≠ j →
      pool s !! i = Some gi →
      ctl gi = RangeQuitChans (quit :: rest) configStorage →
      pool s !! j = Some gj →
      ctl gj = InRunForever config quit caller →
      step s (EvQuit quit)
        (mkSystem
           (<[j := mkGoroutine caller (quitChans gj)]>
              (<[i := mkGoroutine (RangeQuitChans rest configStorage) (quitChans gi)]>
                 (pool s)))
           (chans s)).

(** An execution and its trace. *)
Inductive exec : system → list event → system → Prop :=
  | exec_nil s : exec s [] s
  | exec_cons s ev s' tr s'' : step s ev s' → exec s' tr s'' → exec s (ev :: tr) s''.

(** The process starts [RunAllForever] once: one goroutine, an empty
    [quitChans] table. No statement of the package starts another
    goroutine. *)
Definition initial : system :=
  mkSystem [mkGoroutine AtSelect ∅] 0.

(** The process is one goroutine standing in the loop of [RunForever] for
    [config]. *)
Definition in_loop (config : Config) (s : system) : Prop :=
  ∃ quit caller table, pool s = [mkGoroutine (InRunForever config quit caller) table].

End Dispatch.

(** ** Vocabulary of the properties *)

(** The three arms of the dispatch in [Run], and the configs none of them
    matches. *)
Definition shell_out (config : Config) : Prop :=
  Command config ≠ "".

Definition in_process_reader (config : Config) : Prop :=
  Command config = "" ∧ GoStruct config ≠ "" ∧ Kind config = "reader".

Definition in_process_writer (config : Config) : Prop :=
  Command config = "" ∧ GoStruct config ≠ "" ∧ Kind config = "writer".

Definition unmatched (config : Config) : Prop :=
  Command config = "" ∧
  (GoStruct config = "" ∨
   (GoStruct config ≠ "" ∧ Kind config ≠ "reader" ∧ Kind config ≠ "writer")).

(** The record [saveRun] serializes for a run with the given host snapshot
    and decoded output. *)
Definition run_record (w : World) (config : Config) (host : Host)
    (runData : gmap string any) : gmap string any :=
  <["Data" := AMap runData]> (<["Host" := AHost host]> (Agent.commonData w config)).

(** The store holds, under [key], the serialization of [record], and
    [GetRunByPath] returns it. *)
Definition stored_record (w : World) (a : Agent.Agent) (key : string)
    (record : gmap string any) : Prop :=
  ∃ recordInJson,
    json_Marshal w (AMap record) = (recordInJson, None) ∧
    Agent.Db a !! key = Some recordInJson ∧
    Agent.GetRunByPath a key = (recordInJson, None).

(** The [Interval] a record echoes. *)
Definition echoed_Interval (config : Config) : string :=
  if decide (Interval config = "") then "1m" else Interval config.

(** An optional config field as a record echoes it: present when set. *)
Definition echoed (field : string) : option any :=
  if decide (field = "") then None else Some (AStr field).

(** The standard input [runCommand] gives the external program. *)
Inductive shell_out_stdin (w : World) (a : Agent.Agent) (config : Config)
    : option bytes → Prop :=
  | stdin_writer readersDataJsonBytes :
      Kind config = "writer" →
      json_Marshal w (AMap (Agent.runCommand_readersData w a config))
        = (readersDataJsonBytes, None) →
      shell_out_stdin w a config (Some readersDataJsonBytes)
  | stdin_none :
      Kind config ≠ "writer" →
      shell_out_stdin w a config None.

(** The execution failures of a run: the shell-out command fails (spawn
    failure or non-zero exit), or the post-processing command of an
    in-process writer fails, or its output does not decode. Each comes with
    the output and the error of the failing step as [Run] sees them. *)
Inductive execution_failure (w : World) (a : Agent.Agent) (config : Config)
    : bytes → error → Prop :=
  | shell_out_failure stdin out e :
      shell_out config →
      shell_out_stdin w a config stdin →
      cmd_Output w (mkCmd (Command config) stdin) = (out, Some e) →
      execution_failure w a config out e
  | processor_failure writer readersDataJsonBytes out e :
      in_process_writer config →
      Agent.initGoStructWriter w a config = Ok writer →
      writers.GetJsonProcessor writer ≠ "" →
      json_Marshal w (AMap (writers.GetReadersData writer))
        = (readersDataJsonBytes, None) →
      cmd_Output w (mkCmd (writers.GetJsonProcessor writer) (Some readersDataJsonBytes))
        = (out, Some e) →
      execution_failure w a config "" e
  | processor_output_unparsable writer readersDataJsonBytes out partial e :
      in_process_writer config →
      Agent.initGoStructWriter w a config = Ok writer →
      writers.GetJsonProcessor writer ≠ "" →
      json_Marshal w (AMap (writers.GetReadersData writer))
        = (readersDataJsonBytes, None) →
      cmd_Output w (mkCmd (writers.GetJsonProcessor writer) (Some readersDataJsonBytes))
        = (out, None) →
      json_Unmarshal_map w out = (partial, Some e) →
      execution_failure w a config "" e.

(** ** A concrete world for the examples

    The collaborators are fixed as follows: the clock and the host snapshot
    are constants, the store's transactions commit, [json.Marshal] is a
    serializer for the values the examples build (object keys sorted, as
    Go does; strings without characters to escape; numbers other than
    [int64] are not used and print as 0), and [json.Unmarshal] decodes
    exactly the texts of a given list of objects and rejects every other
    input, the empty input with Go's message. The commands and the
    registries are parameters. *)

Module Demo.

Definition dq : string := String "034"%char EmptyString.

Definition quote (s : string) : string := dq +:+ s +:+ dq.

Definition key_le (a b : string * string) : Prop := String.leb a.1 b.1 = true.

#[local] Instance key_le_dec a b : Decision (key_le a b) :=
  decide (String.leb a.1 b.1 = true).

Definition marshal_object (fields : list (string * string)) : string :=
  "{" +:+ String.concat ","
            ((λ kv, quote kv.1 +:+ ":" +:+ kv.2) <$> merge_sort key_le fields)
      +:+ "}".

Fixpoint marshal (v : any) : string :=
  match v with
  | ANil => "null"
  | ABool b => if b then "true" else "false"
  | AFloat64 _ => "0"
  | AInt64 z => pretty z
  | AStr s => quote s
  | AHost h =>
      marshal_object
        [("Name", quote (HostName h));
         ("Tags", "[" +:+ String.concat "," (quote <$> HostTags h) +:+ "]")]
  | ASlice l => "[" +:+ String.concat "," (map marshal l) +:+ "]"
  | AMap m => marshal_object (map_to_list (marshal <$> m))
  end.

Definition syntax_error (data : bytes) : error :=
  if decide (data = "") then "unexpected end of JSON input"
  else "invalid character looking for beginning of value".

Definition unmarshal_map (decodable : list (gmap string any)) (data : bytes)
    : gmap string any * option error :=
  match find (λ m, bool_decide (marshal (AMap m) = data)) decodable with
  | Some m => (m, None)
  | None => (∅, Some (syntax_error data))
  end.

Definition unmarshal (decodable : list (gmap string any)) (data : bytes)
    : any * option error :=
  match unmarshal_map decodable data with
  | (m, None) => (AMap m, None)
  | (_, Some e) => (ANil, Some e)
  end.

Definition world (commands : Cmd → bytes * option error)
    (decodable : list (gmap string any))
    (rs : gmap string (unit → readers.IReader))
    (ws : gmap string (unit → writers.IWriter)) : World :=
  {| time_Now_UnixNano := 1700000000000000000;
     NewHostByHostname := Ok (mkHost "localhost" []);
     cmd_Output := commands;
     json_Marshal := λ v, (marshal v, None);
     json_Unmarshal := unmarshal decodable;
     json_Unmarshal_map := unmarshal_map decodable;
     Db_Update_Put_err := λ _ _, None;
     readerConstructors := rs;
     writerConstructors := ws |}.

(** An agent with an empty store. *)
Definition agent0 : Agent.Agent := Agent.mkAgent ∅ [].

(** A command that exits with status 1 and prints nothing. *)
Definition failing_command : Cmd → bytes * option error :=
  λ _, ("", Some "exit status 1").

(** A command that prints [text] and exits with status 0. *)
Definition printing_command (text : bytes) : Cmd → bytes * option error :=
  λ _, (text, None).

(** A collector whose [Run] fails with [msg]. *)
Definition failing_reader (msg : error) : readers.IReader :=
  readers.mkIReader unit tt (λ s, (s, Some msg)) (λ _, ("null", None)).

(** A writer that keeps what it is given and whose [Run] succeeds; its JSON
    processor is [processor]. *)
Definition plain_writer (processor : string) : writers.IWriter :=
  writers.mkIWriter
    (gmap string bytes * gmap string any) (∅, ∅)
    (λ s, (s, None))
    (λ s, (marshal (AMap s.2), None))
    (λ _, processor)
    (λ s, s.2)
    (λ d s, (s.1, d))
    (λ d s, (d, s.2)).

(** The inputs of the examples. *)

(** No command succeeds; nothing decodes; nothing is registered. *)
Definition world_failing : World := world failing_command [] ∅ ∅.

(** Every command prints the empty JSON object, which decodes. *)
Definition world_echo : World := world (printing_command "{}") [∅] ∅ ∅.

(** Every command prints a line that is not JSON. *)
Definition world_date : World := world (printing_command "Fri Oct 30") [] ∅ ∅.

(** The reader "Boom" is registered and its [Run] fails with "boom"; the
    error payload decodes. *)
Definition world_boom : World :=
  world failing_command [{["Error" := AStr "boom"]}]
    {["Boom" := λ _, failing_reader "boom"]} ∅.

(** The writer "Plain" is registered with the JSON processor "jq"; every
    command fails. *)
Definition world_jq : World :=
  world failing_command [] ∅ {["Plain" := λ _, plain_writer "jq"]}.

Definition reader_false : Config := mkConfig "false" "" "/x" "1m" "reader" [].
Definition reader_echo : Config := mkConfig "echo" "" "/x" "" "reader" [].
Definition reader_date : Config := mkConfig "date" "" "/x" "1m" "reader" [].
Definition reader_boom : Config := mkConfig "" "Boom" "/x" "5s" "reader" [].
Definition reader_nope : Config := mkConfig "" "Nope" "/x" "1m" "reader" [].
Definition reader_empty : Config := mkConfig "" "" "/x" "1m" "reader" [].
Definition reader_empty_no_path : Config := mkConfig "" "" "" "1m" "reader" [].
Definition writer_plain : Config :=
  mkConfig "" "Plain" "/alert" "1m" "writer" ["/cpu"; "/mem"].

(** A store that holds a record for "/cpu" and none for "/mem". *)
Definition agent_cpu : Agent.Agent := Agent.mkAgent {["/r/cpu" := "{}"]} [].

Definition reader_cpu : Config := mkConfig "" "CPUPercent" "/cpu" "1s" "reader" [].
Definition reader_mem : Config := mkConfig "" "Memory" "/mem" "1s" "reader" [].

(** A configuration set with two readers. *)
Definition two_readers : Dispatch.ConfigStorage :=
  Dispatch.mkConfigStorage [reader_cpu; reader_mem] [].

End Demo.

(** ** Package cpu: [CPUPercent]

    [CPUTimes] lives in the per-platform files of the package; it is a
    parameter, indexed by the number of calls made before, so that two
    readings may differ. The two package variables, the number of calls and
    the sleeps made are the state. An index out of range is a panic. *)

Module cpu.

Record CPUTimesStat := mkCPUTimesStat {
  CPU : string;
  User : float;
  System : float;
  Idle : float;
  Nice : float;
  Iowait : float;
  Irq : float;
  Softirq : float;
  Steal : float;
  Guest : float;
  GuestNice : float;
  Stolen : float;
}.

Inductive outcome (A : Type) : Type :=
  | Returned (a : A)
  | Panicked.
Arguments Returned {A} a.
Arguments Panicked {A}.

Record state := mkState {
  lastCPUTimes : list CPUTimesStat;
  lastPerCPUTimes : list CPUTimesStat;
  (** calls of [CPUTimes] made so far *)
  calls : nat;
  (** durations slept so far, latest first *)
  sleeps : list Z;
}.

Definition getAllBusy (t : CPUTimesStat) : float * float :=
  let busy :=
    (User t + System t + Nice t + Iowait t + Irq t
     + Softirq t + Steal t + Guest t + GuestNice t + Stolen t)%float in
  ((busy + Idle t)%float, busy).

Definition calculate (t1 t2 : CPUTimesStat) : float :=
  let '(t1All, t1Busy) := getAllBusy t1 in
  let '(t2All, t2Busy) := getAllBusy t2 in
  if (t2Busy <=? t1Busy)%float then 0%float
  else if (t2All <=? t1All)%float then 1%float
  else ((t2Busy - t1Busy) / (t2All - t1All) * 100)%float.

(** [for i, t := range cpuTimes { ret[i] = calculate(lastPerCPUTimes[i], t) }]:
    the entries computed, or a panic at the first index [lastPerCPUTimes]
    does not have. *)
Fixpoint percpu_loop (last cpuTimes : list CPUTimesStat) : outcome (list float) :=
  match cpuTimes with
  | [] => Returned []
  | t :: cpuTimes' =>
      match last with
      | [] => Panicked
      | l :: last' =>
          match percpu_loop last' cpuTimes' with
          | Returned ret => Returned (calculate l t :: ret)
          | Panicked => Panicked
          end
      end
  end.

Section CPUPercent.

Context (CPUTimes : nat → bool → list CPUTimesStat * option error).

(** One call of [CPUTimes]. *)
Definition read (percpu : bool) (g : state)
    : (list CPUTimesStat * option error) * state :=
  (CPUTimes (calls g) percpu,
   mkState (lastCPUTimes g) (lastPerCPUTimes g) (S (calls g)) (sleeps g)).

Definition set_last (percpu : bool) (cpuTimes : list CPUTimesStat) (g : state) : state :=
  if negb percpu
  then mkState cpuTimes (lastPerCPUTimes g) (calls g) (sleeps g)
  else mkState (lastCPUTimes g) cpuTimes (calls g) (sleeps g).

Definition time_Sleep (interval : Z) (g : state) : state :=
  mkState (lastCPUTimes g) (lastPerCPUTimes g) (calls g) (interval :: sleeps g).

(** From [ret := make([]float64, len(cpuTimes))] to the end. *)
Definition percentages (percpu : bool) (cpuTimes : list CPUTimesStat) (g : state)
    : outcome ((list float * option error) * state) :=
  let ret := replicate (length cpuTimes) 0%float in
  if negb percpu then
    match lastCPUTimes g !! 0, cpuTimes !! 0 with
    | Some l, Some t =>
        Returned ((<[0 := calculate l t]> ret, None), set_last percpu cpuTimes g)
    | _, _ => Panicked
    end
  else
    match percpu_loop (lastPerCPUTimes g) cpuTimes with
    | Returned ret => Returned ((ret, None), set_last percpu cpuTimes g)
    | Panicked => Panicked
    end.

Definition CPUPercent (interval : Z) (percpu : bool) (g : state)
    : outcome ((list float * option error) * state) :=
  let '((cpuTimes, err), g) := read percpu g in
  match err with
  | Some e => Returned (([], Some e), g)
  | None =>
      if (interval >? 0)%Z then
        let g := set_last percpu cpuTimes g in
        let g := time_Sleep interval g in
        let '((cpuTimes, err), g) := read percpu g in
        match err with
        | Some e => Returned (([], Some e), g)
        | None => percentages percpu cpuTimes g
        end
      else percentages percpu cpuTimes g
  end.

(** [init]: both package variables are set from a first reading; the
    errors are dropped. *)
Definition init (g : state) : state :=
  let '((cpuTimes, _), g) := read false g in
  let g := set_last false cpuTimes g in
  let '((cpuTimes, _), g) := read true g in
  set_last true cpuTimes g.

End CPUPercent.

(** [CPUCounts]: the argument is not used, the error is always nil. *)
Definition CPUCounts (runtime_NumCPU : Z) (logical : bool) : Z * option error :=
  (runtime_NumCPU, None).

End cpu.

(** ** Package procfs: the reader [ProcUptime]

    [linuxproc.ReadUptime] and the type it returns are parameters: [Uptime]
    with the dynamic value [json.Marshal] sees for it. *)

Module procfs.

Section ProcUptime.

Context {Uptime : Type} (Uptime_value : Uptime → any).
Context (ReadUptime : string → result Uptime).
Context (json_Marshal : any → bytes * option error).

(** [ProcUptime]: [Data] is a pointer, nil until a [Run] succeeds. *)
Record ProcUptime := mkProcUptime {
  Data : option Uptime;
}.

Definition Run (p : ProcUptime) : ProcUptime * option error :=
  match ReadUptime "/proc/uptime" with
  | Err e => (p, Some e)
  | Ok uptime => (mkProcUptime (Some uptime), None)
  end.

Definition Data_value (p : ProcUptime) : any :=
  match Data p with
  | Some uptime => Uptime_value uptime
  | None => ANil
  end.

Definition ToJson (p : ProcUptime) : bytes * option error :=
  json_Marshal (Data_value p).

(** [NewProcUptime], as the [readers.IReader] it returns. *)
Definition NewProcUptime (_ : unit) : readers.IReader :=
  readers.mkIReader ProcUptime (mkProcUptime None) Run ToJson.

End ProcUptime.

(** Modelled from the spec: [readers.Register], which is not part of the
    sources: registration under an identifier that is already registered is
    fatal ([None]). *)
Definition Register (name : string) (constructor : unit → readers.IReader)
    (readerConstructors : gmap string (unit → readers.IReader))
    : option (gmap string (unit → readers.IReader)) :=
  match readerConstructors !! name with
  | Some _ => None
  | None => Some (<[name := constructor]> readerConstructors)
  end.

(** [init]: [readers.Register("ProcUptime", NewProcUptime)]. *)
Definition init {Uptime : Type} (Uptime_value : Uptime → any)
    (ReadUptime : string → result Uptime) (json_Marshal : any → bytes * option error)
    (readerConstructors : gmap string (unit → readers.IReader))
    : option (gmap string (unit → readers.IReader)) :=
  Register "ProcUptime" (NewProcUptime Uptime_value ReadUptime json_Marshal)
    readerConstructors.

End procfs.

(** ** Package executors: [DiskCleaner]

    The embedded [Base] is not part of the sources: its [Conditions] and the
    results of its three predicates for the call are fields. The file
    system is an abstract state; [filepath.Glob], [os.RemoveAll] and
    [libstring.ExpandTildeAndEnv] are parameters. A failed type assertion
    is a panic. *)

Module executors.

Local Open Scope list_scope.

Record Base := mkBase {
  Conditions : any;
  IsConditionMet : bool;
  LowThresholdExceeded : bool;
  HighThresholdExceeded : bool;
}.

(** The values [Run] stores in [Data]. *)
Inductive value : Type :=
  | VAny (v : any)
  | VString (s : string)
  | VInt (n : Z)
  | VStrings (l : list string).

Record DiskCleaner := mkDiskCleaner {
  base : Base;
  Data : gmap string value;
  Globs : list any;
}.

(** [NewDiskCleaner], for a given [Base]. *)
Definition NewDiskCleaner (b : Base) : DiskCleaner :=
  mkDiskCleaner b ∅ [].

(** One entry of the log: the fields of "Deleted files". *)
Record log_entry := mkLogEntry {
  log_Success : list string;
  log_Failure : list string;
  log_ExitStatus : option value;
}.

(** How [Run] ends: it returns an error or nil, or it panics. *)
Inductive status : Type :=
  | Done (err : option error)
  | Panic.

Section DiskCleaner.

Context {FS : Type}.
Context (ExpandTildeAndEnv : string → string).
Context (filepath_Glob : FS → string → list string * option error).
Context (os_RemoveAll : FS → string → FS * option error).

(** The inner loop: [for _, fullpath := range matches]. *)
Definition remove_matches (matches : list string) (fs : FS)
    (successOutput failOutput : list string) : FS * list string * list string :=
  foldl
    (λ '(fs, successOutput, failOutput) fullpath,
       let '(fs, err) := os_RemoveAll fs fullpath in
       match err with
       | Some _ => (fs, successOutput, failOutput ++ [fullpath])
       | None => (fs, successOutput ++ [fullpath], failOutput)
       end)
    (fs, successOutput, failOutput) matches.

(** How the loop over [Globs] ends. *)
Inductive loop_exit : Type :=
  | Finished (fs : FS) (successOutput failOutput : list string)
  | BadPattern (e : error) (fs : FS)
  | NotAString (fs : FS).

(** The outer loop: [for _, globInterface := range dc.Globs]. *)
Fixpoint over_globs (globs : list any) (fs : FS)
    (successOutput failOutput : list string) : loop_exit :=
  match globs with
  | [] => Finished fs successOutput failOutput
  | globInterface :: globs =>
      match globInterface with
      | AStr glob =>
          let glob := ExpandTildeAndEnv glob in
          let '(matches, err) := filepath_Glob fs glob in
          match err with
          | Some e => BadPattern e fs
          | None =>
              let '(fs, successOutput, failOutput) :=
                remove_matches matches fs successOutput failOutput in
              over_globs globs fs successOutput failOutput
          end
      | _ => NotAString fs
      end
  end.

Definition with_Data (dc : DiskCleaner) (data : gmap string value) : DiskCleaner :=
  mkDiskCleaner (base dc) data (Globs dc).

(** [Run]: how it ends, the receiver, the file system and the log entries
    written. *)
Definition Run (dc : DiskCleaner) (fs : FS)
    : status * DiskCleaner * FS * list log_entry :=
  let data := <["Conditions" := VAny (Conditions (base dc))]> (Data dc) in
  if IsConditionMet (base dc) && LowThresholdExceeded (base dc)
     && negb (HighThresholdExceeded (base dc))
  then
    match over_globs (Globs dc) fs [] [] with
    | NotAString fs => (Panic, with_Data dc data, fs, [])
    | BadPattern e fs =>
        let data := <["Error" := VString e]> data in
        let data := <["ExitStatus" := VInt 1]> data in
        (Done (Some e), with_Data dc data, fs, [])
    | Finished fs successOutput failOutput =>
        let data :=
          if decide (0 < length failOutput)%nat
          then <["ExitStatus" := VInt 1]> data
          else <["ExitStatus" := VInt 0]> data in
        let data := <["Success" := VStrings successOutput]> data in
        let data := <["Failure" := VStrings failOutput]> data in
        let log :=
          if decide ((0 < length failOutput)%nat ∨ (0 < length successOutput)%nat)
          then [mkLogEntry successOutput failOutput (data !! "ExitStatus")]
          else [] in
        (Done None, with_Data dc data, fs, log)
    end
  else (Done None, with_Data dc data, fs, []).

(** The removals a list of patterns leads to, each with whether it
    succeeded, in the order they are made; [None] when a pattern is not a
    string or is malformed. *)
Fixpoint removals_of_matches (matches : list string) (fs : FS)
    : FS * list (string * bool) :=
  match matches with
  | [] => (fs, [])
  | fullpath :: matches =>
      let '(fs, err) := os_RemoveAll fs fullpath in
      let '(fs', rest) := removals_of_matches matches fs in
      (fs', (fullpath, bool_decide (err = None)) :: rest)
  end.

Fixpoint removals (globs : list any) (fs : FS) : option (FS * list (string * bool)) :=
  match globs with
  | [] => Some (fs, [])
  | AStr glob :: globs =>
      match filepath_Glob fs (ExpandTildeAndEnv glob) with
      | (matches, None) =>
          let '(fs, made) := removals_of_matches matches fs in
          match removals globs fs with
          | Some (fs', rest) => Some (fs', made ++ rest)
          | None => None
          end
      | (_, Some _) => None
      end
  | _ :: _ => None
  end.

End DiskCleaner.

End executors.

(** ** Agent set-up *)

Module AgentSetup.

(** [strings.Split(s, sep)] for a one-byte separator: the pieces of [s]
    between the occurrences of [sep], one more than there are
    occurrences. *)
Fixpoint strings_Split (s : string) (sep : ascii) : list string :=
  match s with
  | EmptyString => [""]
  | String c s' =>
      if decide (c = sep) then "" :: strings_Split s' sep
      else
        match strings_Split s' sep with
        | piece :: pieces => String c piece :: pieces
        | [] => [String c ""]
        end
  end.

(** Number of occurrences of a byte ([strings.Count] for a one-byte
    separator). *)
Fixpoint strings_Count (s : string) (sep : ascii) : nat :=
  match s with
  | EmptyString => 0
  | String c s' => (if decide (c = sep) then 1 else 0) + strings_Count s' sep
  end.

(** [setTags]: the value of [a.Tags] it leaves, from the value of the
    environment variable RESOURCED_TAGS. [strings.TrimSpace] is a
    parameter. *)
Definition setTags (TrimSpace : string → string) (tags : string) : list string :=
  let Tags : list string := [] in
  if decide (tags ≠ "") then
    let tagsSlice := strings_Split tags "," in
    (λ tag, TrimSpace tag) <$> tagsSlice
  else Tags.

End AgentSetup.

(** The failures of [saveRun] other than the decoding of the output: the
    host snapshot cannot be taken, the record does not serialize, or the
    store transaction fails. Each comes with the error [saveRun] returns. *)
Inductive persistence_failure (w : World) (a : Agent.Agent) (config : Config)
    (output : bytes) : error → Prop :=
  | host_failure e :
      Agent.hostData w a = Err e →
      persistence_failure w a config output e
  | record_marshal_failure host runData partial e :
      Agent.hostData w a = Ok host →
      json_Unmarshal_map w output = (runData, None) →
      json_Marshal w (AMap (run_record w config host runData)) = (partial, Some e) →
      persistence_failure w a config output e
  | store_failure host runData recordInJson e :
      Agent.hostData w a = Ok host →
      json_Unmarshal_map w output = (runData, None) →
      json_Marshal w (AMap (run_record w config host runData)) = (recordInJson, None) →
      Db_Update_Put_err w (Agent.pathWithPrefix config) recordInJson = Some e →
      persistence_failure w a config output e.

(** A config of one of the two kinds that get a key prefix. *)
Definition reader_or_writer (config : Config) : Prop :=
  Kind config = "reader" ∨ Kind config = "writer".

(** The keys a record always has, and the ones it has when the config sets
    the field. *)
Definition record_keys (config : Config) : gset string :=
  {["UnixNano"; "Path"; "Interval"; "Host"; "Data"]}
  ∪ (if decide (Command config ≠ "") then {["Command"]} else ∅)
  ∪ (if decide (GoStruct config ≠ "") then {["GoStruct"]} else ∅).

(** The bytes a writer is given for a reader path: what [GetRunByPath]
    returns under the reader-prefixed path. *)
Definition reader_bytes (a : Agent.Agent) (readerPath : string) : bytes :=
  (Agent.GetRunByPath a (Agent.pathWithReaderPrefix (Agent.InString readerPath))).1.

(** A world with other registries. *)
Definition with_registries (rs : gmap string (unit → readers.IReader))
    (ws : gmap string (unit → writers.IWriter)) (w : World) : World :=
  {| time_Now_UnixNano := time_Now_UnixNano w;
     NewHostByHostname := NewHostByHostname w;
     cmd_Output := cmd_Output w;
     json_Marshal := json_Marshal w;
     json_Unmarshal := json_Unmarshal w;
     json_Unmarshal_map := json_Unmarshal_map w;
     Db_Update_Put_err := Db_Update_Put_err w;
     readerConstructors := rs;
     writerConstructors := ws |}.

(** The events of the dispatcher before it enters a loop. *)
Definition quiet (ev : Dispatch.event) : Prop :=
  match ev with
  | Dispatch.EvConfig _ | Dispatch.EvNext => True
  | _ => False
  end.

(** The dispatcher has entered no loop yet: one goroutine, in
    [RunAllForever] itself, no channel made, an empty [quitChans] table, no
    signal to send. *)
Definition before_loop (s : Dispatch.system) : Prop :=
  ∃ c,
    s = Dispatch.mkSystem [Dispatch.mkGoroutine c ∅] 0 ∧
    match c with
    | Dispatch.AtSelect | Dispatch.RangeReaders _ _ | Dispatch.RangeWriters _
    | Dispatch.RangeQuitChans [] _ => True
    | _ => False
    end.

(** The dispatcher stands in the loop of [RunForever] for [config], on the
    first channel made, and no other channel was made. *)
Definition in_first_loop (config : Config) (s : Dispatch.system) : Prop :=
  ∃ caller table,
    s = Dispatch.mkSystem
          [Dispatch.mkGoroutine (Dispatch.InRunForever config 0 caller) table] 1.

(** The entries the dispatcher has still to loop over, in the order it
    takes them: the rest of the readers, then the writers. *)
Definition pending_entries (c : Dispatch.control) : list Config :=
  match c with
  | Dispatch.RangeQuitChans _ configStorage =>
      Dispatch.Readers configStorage ++ Dispatch.Writers configStorage
  | Dispatch.RangeReaders rest configStorage => rest ++ Dispatch.Writers configStorage
  | Dispatch.RangeWriters rest => rest
  | _ => []
  end.

(** The paths removed, and the paths whose removal failed, among the
    removals made. *)
Definition succeeded (made : list (string * bool)) : list string :=
  (filter (λ r, r.2 = true) made).*1.

Definition failed (made : list (string * bool)) : list string :=
  (filter (λ r, r.2 = false) made).*1.

(** The gate of [DiskCleaner.Run]. *)
Definition gate_open (b : executors.Base) : bool :=
  executors.IsConditionMet b && executors.LowThresholdExceeded b
  && negb (executors.HighThresholdExceeded b).

(** What decoding makes of a raw mapping of reader paths to bytes: each
    entry is decoded, and an entry whose bytes do not decode, as the empty
    bytes of a missing record do not, is left out. *)
Definition decode_raw (unmarshal : bytes → any * option error)
    (raw : gmap string bytes) : gmap string any :=
  omap
    (λ readerJsonBytes,
       match unmarshal readerJsonBytes with
       | (data, None) => Some data
       | (_, Some _) => None
       end)
    raw.

(** Modelled from the spec: the writer's [SetReadersDataInBytes] (the
    spec's SetUpstreamReaderDataRaw) and [GetReadersData], whose
    implementation in the writers package is not part of the sources. The
    upstream reader data a writer holds after it is given the raw mapping is
    the decoding of that mapping, missing entries being absent from it. *)
Definition spec_writer (w : World) (writer : writers.IWriter) : Prop :=
  ∀ raw : gmap string bytes,
    writers.GetReadersData (writers.SetReadersDataInBytes raw writer)
    = decode_raw (json_Unmarshal w) raw.

(** ** More inputs for the examples *)

Module Samples.

(** Every command prints the empty JSON object; the store refuses every
    transaction. *)
Definition world_read_only : World :=
  {| time_Now_UnixNano := 1700000000000000000;
     NewHostByHostname := Ok (mkHost "localhost" []);
     cmd_Output := Demo.printing_command "{}";
     json_Marshal := λ v, (Demo.marshal v, None);
     json_Unmarshal := Demo.unmarshal [∅];
     json_Unmarshal_map := Demo.unmarshal_map [∅];
     Db_Update_Put_err := λ _ _, Some "database is in read-only mode";
     readerConstructors := ∅;
     writerConstructors := ∅ |}.

(** The same commands, a later clock. *)
Definition world_echo_later : World :=
  {| time_Now_UnixNano := 1700000060000000000;
     NewHostByHostname := Ok (mkHost "localhost" []);
     cmd_Output := Demo.printing_command "{}";
     json_Marshal := λ v, (Demo.marshal v, None);
     json_Unmarshal := Demo.unmarshal [∅];
     json_Unmarshal_map := Demo.unmarshal_map [∅];
     Db_Update_Put_err := λ _ _, None;
     readerConstructors := ∅;
     writerConstructors := ∅ |}.

Definition reader_echo_no_path : Config := mkConfig "echo" "" "" "1m" "reader" [].
Definition writer_x : Config := mkConfig "cat" "" "/x" "1m" "writer" ["/x"].
Definition other_r_x : Config := mkConfig "echo" "" "/r/x" "1m" "" [].

(** A writer that shells out to "cat" and consumes the reader "/x". *)
Definition writer_cat : Config := mkConfig "cat" "" "/alert" "1m" "writer" ["/x"].

(** Every command prints the empty JSON object; the empty object and the
    record of [Demo.reader_echo] decode. *)
Definition world_cat : World :=
  Demo.world (Demo.printing_command "{}")
    [∅; run_record Demo.world_echo Demo.reader_echo (mkHost "localhost" []) ∅] ∅ ∅.

(** The writer "Broken" is registered, has no JSON processor, and its [Run]
    fails with "no route to host"; the error payload decodes. *)
Definition broken_writer : writers.IWriter :=
  writers.mkIWriter
    (gmap string any) ∅
    (λ s, (s, Some "no route to host"))
    (λ _, ("null", None))
    (λ _, "")
    (λ s, s)
    (λ d _, d)
    (λ _ s, s).

Definition world_broken : World :=
  Demo.world Demo.failing_command [{["Error" := AStr "no route to host"]}]
    ∅ {["Broken" := λ _, broken_writer]}.

Definition writer_broken : Config := mkConfig "" "Broken" "/alert" "1m" "writer" ["/x"].

(** A config that sets both [Command] and an unregistered [GoStruct]. *)
Definition reader_both : Config := mkConfig "echo" "Nope" "/x" "1m" "reader" [].

(** Readings of one core: 10 busy of 100, then 30 busy of 200, then the
    same again. *)
Definition core (user idle : float) : cpu.CPUTimesStat :=
  cpu.mkCPUTimesStat "cpu0" user 0 idle 0 0 0 0 0 0 0 0.

Definition CPUTimes_one_core (n : nat) (percpu : bool)
    : list cpu.CPUTimesStat * option error :=
  match n with
  | 0 => ([core 10 90], None)
  | _ => ([core 30 170], None)
  end.

(** A first reading, then a failure. *)
Definition CPUTimes_then_fails (n : nat) (percpu : bool)
    : list cpu.CPUTimesStat * option error :=
  match n with
  | 0 => ([core 10 90], None)
  | _ => ([], Some "open /proc/stat: no such file or directory")
  end.

(** Nothing can be read. *)
Definition CPUTimes_fails (n : nat) (percpu : bool)
    : list cpu.CPUTimesStat * option error :=
  ([], Some "open /proc/stat: no such file or directory").

(** The package state before [init]. *)
Definition cpu_state0 : cpu.state := cpu.mkState [] [] 0 [].

(** The uptime as a decoded value; reading it succeeds, or fails. *)
Definition uptime_fields : gmap string any :=
  {["total" := AInt64 3600; "idle" := AInt64 3000]}.

Definition uptime_value : any := AMap uptime_fields.

Definition ReadUptime_ok (path : string) : result any := Ok uptime_value.

Definition ReadUptime_fails (path : string) : result any :=
  Err "open /proc/uptime: no such file or directory".

Definition world_uptime (ReadUptime : string → result any) : World :=
  Demo.world Demo.failing_command [uptime_fields]
    {["ProcUptime" :=
        procfs.NewProcUptime (λ v : any, v) ReadUptime (λ v, (Demo.marshal v, None))]}
    ∅.

Definition reader_uptime : Config := mkConfig "" "ProcUptime" "/uptime" "1m" "reader" [].

(** A file system as the list of its paths: a pattern matches the paths
    it is a prefix of, "[" is a malformed pattern, and everything can be
    removed except the paths under "/tmp/keep". *)
Definition toy_Glob (fs : list string) (pattern : string) : list string * option error :=
  if decide (pattern = "[") then ([], Some "syntax error in pattern")
  else (filter (λ path, String.prefix pattern path = true) fs, None).

Definition toy_RemoveAll (fs : list string) (path : string) : list string * option error :=
  if String.prefix "/tmp/keep" path then (fs, Some "permission denied")
  else (filter (λ path', path' ≠ path) fs, None).

Definition toy_fs : list string := ["/tmp/a.log"; "/tmp/keep/b.log"; "/var/c.log"].

Definition base_open : executors.Base := executors.mkBase ANil true true false.
Definition base_high : executors.Base := executors.mkBase ANil true true true.

Definition cleaner (b : executors.Base) (globs : list any) : executors.DiskCleaner :=
  executors.mkDiskCleaner b ∅ globs.

(** A writer that decodes the raw mapping it is given and keeps the
    result; it has no JSON processor and its [Run] succeeds. *)
Definition decoding_writer (unmarshal : bytes → any * option error) : writers.IWriter :=
  writers.mkIWriter
    (gmap string any) ∅
    (λ s, (s, None))
    (λ s, (Demo.marshal (AMap s), None))
    (λ _, "")
    (λ s, s)
    (λ d _, d)
    (λ raw _, decode_raw unmarshal raw).

(** The writer "Decoding" is registered; the empty object decodes. *)
Definition world_decoding : World :=
  Demo.world (Demo.printing_command "{}") [∅] ∅
    {["Decoding" := λ _, decoding_writer (Demo.unmarshal [∅])]}.

Definition writer_decoding : Config :=
  mkConfig "" "Decoding" "/alert" "1m" "writer" ["/cpu"; "/mem"].

(** No readers, no writers. *)
Definition no_tasks : Dispatch.ConfigStorage := Dispatch.mkConfigStorage [] [].

(** No readers, two writers. *)
Definition two_writers : Dispatch.ConfigStorage :=
  Dispatch.mkConfigStorage [] [writer_cat; writer_broken].

End Samples.

(** * Properties *)

Import Agent.

(** Decide the guards of the model one after the other. *)
Ltac guards :=
  repeat (case_decide; try (exfalso; intuition congruence)); try done.

(** ** Kind prefixes *)

Lemma append_assoc (s1 s2 s3 : string) : (s1 +:+ s2) +:+ s3 = s1 +:+ (s2 +:+ s3).
Proof.
  induction s1 as [|c s1 IH]; [done|].
  change (String c ((s1 +:+ s2) +:+ s3) = String c (s1 +:+ (s2 +:+ s3))).
  by rewrite IH.
Qed.

Lemma prefix_of_append (p s : string) : String.prefix p (p +:+ s) = true.
Proof.
  induction p as [|c p IH]; simpl.
  - by destruct s.
  - destruct (ascii_dec c c) as [_|Hne]; [exact IH | exfalso; by apply Hne].
Qed.

Lemma slash_head (s : string) :
  String.prefix "/" s = true → ∃ t, s = String "/" t.
Proof.
  destruct s as [|c t]; cbn [String.prefix]; [by intros ?|].
  destruct (ascii_dec "/" c) as [<-|]; [eauto | by intros ?].
Qed.

Lemma prefixed_unchanged (rOrW v : string) :
  String.prefix (("/" +:+ rOrW) +:+ "/") v = true →
  pathWithReaderOrWriterPrefix rOrW (InString v) = v.
Proof. unfold pathWithReaderOrWriterPrefix. cbv zeta. by intros ->. Qed.

Lemma unprefixed_prepended (rOrW v : string) :
  String.prefix (("/" +:+ rOrW) +:+ "/") v = false →
  pathWithReaderOrWriterPrefix rOrW (InString v) = ("/" +:+ rOrW) +:+ v.
Proof. unfold pathWithReaderOrWriterPrefix. cbv zeta. by intros ->. Qed.

Lemma prefix_idempotent (rOrW v : string) :
  String.prefix "/" v = true →
  pathWithReaderOrWriterPrefix rOrW
    (InString (pathWithReaderOrWriterPrefix rOrW (InString v)))
  = pathWithReaderOrWriterPrefix rOrW (InString v).
Proof.
  intros [t ->]%slash_head.
  destruct (String.prefix (("/" +:+ rOrW) +:+ "/") (String "/" t)) eqn:Hp.
  - by rewrite !(prefixed_unchanged _ _ Hp).
  - rewrite (unprefixed_prepended _ _ Hp).
    apply prefixed_unchanged.
    change (String "/" t) with ("/" +:+ t).
    rewrite <- (append_assoc ("/" +:+ rOrW) "/" t).
    apply prefix_of_append.
Qed.

(** C10. For every string that begins with "/", prefixing twice is
    prefixing once, for the reader prefix and for the writer prefix, and a
    path that already carries "/r/" (resp. "/w/") is returned unchanged. *)
Theorem C10_prefix_idempotent (s : string) :
  String.prefix "/" s = true →
  pathWithReaderPrefix (InString (pathWithReaderPrefix (InString s)))
    = pathWithReaderPrefix (InString s) ∧
  pathWithWriterPrefix (InString (pathWithWriterPrefix (InString s)))
    = pathWithWriterPrefix (InString s) ∧
  (String.prefix "/r/" s = true → pathWithReaderPrefix (InString s) = s) ∧
  (String.prefix "/w/" s = true → pathWithWriterPrefix (InString s) = s).
Proof.
  intros Hs. unfold pathWithReaderPrefix, pathWithWriterPrefix.
  split_and!.
  - by apply prefix_idempotent.
  - by apply prefix_idempotent.
  - exact (prefixed_unchanged "r" s).
  - exact (prefixed_unchanged "w" s).
Qed.

Lemma C10_prefix_idempotent_witness :
  pathWithReaderPrefix (InString (pathWithReaderPrefix (InString "/cpu")))
    = pathWithReaderPrefix (InString "/cpu") ∧
  pathWithWriterPrefix (InString (pathWithWriterPrefix (InString "/cpu")))
    = pathWithWriterPrefix (InString "/cpu") ∧
  (String.prefix "/r/" "/cpu" = true → pathWithReaderPrefix (InString "/cpu") = "/cpu") ∧
  (String.prefix "/w/" "/cpu" = true → pathWithWriterPrefix (InString "/cpu") = "/cpu").
Proof. apply (C10_prefix_idempotent "/cpu"). reflexivity. Defined.

(** Without the leading "/" the prefix does stack. *)
Example prefix_stacks_without_slash :
  pathWithReaderPrefix (InString (pathWithReaderPrefix (InString "cpu"))) = "/r/rcpu".
Proof. reflexivity. Qed.

(** ** Single-run execution: the shape of [Run] and [saveRun] *)

Section run_shape.

Context (w : World) (a : Agent) (config : Config).

Lemma Run_dispatch_error out e :
  Run_dispatch w a config = (out, Some e) →
  Run w a config = ((out, Some e), a).
Proof. unfold Run. by intros ->. Qed.

Lemma Run_dispatch_ok out :
  Run_dispatch w a config = (out, None) →
  Run w a config = ((out, (saveRun w a config out).1), (saveRun w a config out).2).
Proof. unfold Run. intros ->. by destruct (saveRun w a config out). Qed.

Lemma Run_inv out err a' :
  Run w a config = ((out, err), a') →
  Run_dispatch w a config = (out, err) ∧ a' = a ∧ is_Some err ∨
  Run_dispatch w a config = (out, None) ∧ saveRun w a config out = (err, a').
Proof.
  unfold Run. destruct (Run_dispatch w a config) as [output [e|]].
  - intros [= <- <- <-]. left. eauto.
  - destruct (saveRun w a config output) as [err' a''] eqn:Hs.
    intros [= <- <- <-]. by right.
Qed.

Lemma dispatch_shell_out :
  shell_out config → Run_dispatch w a config = runCommand w a config.
Proof. unfold Run_dispatch, shell_out. intros. guards. Qed.

Lemma dispatch_in_process_reader :
  in_process_reader config → Run_dispatch w a config = runGoStructReader w a config.
Proof. unfold Run_dispatch, in_process_reader. intros (? & ? & ?). guards. Qed.

Lemma dispatch_in_process_writer :
  in_process_writer config → Run_dispatch w a config = runGoStructWriter w a config.
Proof.
  unfold Run_dispatch, in_process_writer. intros (? & ? & ?). guards.
Qed.

Lemma dispatch_unmatched :
  unmatched config → Run_dispatch w a config = ("", None).
Proof. unfold Run_dispatch, unmatched. intros (? & [?|(? & ? & ?)]); guards. Qed.

(** The four cases are exhaustive. *)
Lemma dispatch_cases :
  shell_out config ∨ in_process_reader config ∨ in_process_writer config ∨
  unmatched config.
Proof.
  unfold shell_out, in_process_reader, in_process_writer, unmatched.
  destruct (decide (Command config = "")); [|tauto].
  destruct (decide (GoStruct config = "")); [tauto|].
  destruct (decide (Kind config = "reader")); [tauto|].
  destruct (decide (Kind config = "writer")); tauto.
Qed.

Lemma saveRun_no_path output :
  Path config = "" → saveRun w a config output = (None, a).
Proof. unfold saveRun. intros. guards. Qed.

Lemma saveRun_error output e a' :
  saveRun w a config output = (Some e, a') → a' = a.
Proof.
  unfold saveRun. intros H.
  repeat (case_decide || case_match); by simplify_eq.
Qed.

Lemma saveRun_ok_inv output a' :
  Path config ≠ "" →
  saveRun w a config output = (None, a') →
  ∃ host runData recordInJson,
    hostData w a = Ok host ∧
    json_Unmarshal_map w output = (runData, None) ∧
    json_Marshal w (AMap (run_record w config host runData)) = (recordInJson, None) ∧
    Db_Update_Put_err w (pathWithPrefix config) recordInJson = None ∧
    a' = mkAgent (<[pathWithPrefix config := recordInJson]> (Db a)) (Tags a).
Proof.
  unfold saveRun, run_record. intros Hp H.
  case_decide; [done|].
  destruct (hostData w a) as [host|]; [|done].
  destruct (json_Unmarshal_map w output) as [runData [|]]; [done|].
  destruct (json_Marshal w _) as [recordInJson [|]] eqn:Hm; [done|].
  destruct (Db_Update_Put_err w _ _) eqn:Hput; [done|].
  simplify_eq. by eexists _, _, _.
Qed.

Lemma saveRun_ok output host runData recordInJson :
  Path config ≠ "" →
  hostData w a = Ok host →
  json_Unmarshal_map w output = (runData, None) →
  json_Marshal w (AMap (run_record w config host runData)) = (recordInJson, None) →
  Db_Update_Put_err w (pathWithPrefix config) recordInJson = None →
  saveRun w a config output
    = (None, mkAgent (<[pathWithPrefix config := recordInJson]> (Db a)) (Tags a)).
Proof.
  unfold saveRun, run_record. intros Hp -> -> Hm Hput.
  case_decide; [done|]. by rewrite Hm, Hput.
Qed.

Lemma saveRun_unparsable output host partial e :
  Path config ≠ "" →
  hostData w a = Ok host →
  json_Unmarshal_map w output = (partial, Some e) →
  saveRun w a config output = (Some e, a).
Proof. unfold saveRun. intros Hp -> ->. by case_decide. Qed.

(** A run that returns an error leaves the agent, hence the store, as it
    was. *)
Lemma Run_error_unchanged out e a' :
  Run w a config = ((out, Some e), a') → a' = a.
Proof.
  intros [(_ & -> & _)|(_ & Hs)]%Run_inv; [done|].
  by apply saveRun_error in Hs.
Qed.

(** What the record echoes of the config. *)
Lemma run_record_Path host runData :
  run_record w config host runData !! "Path" = Some (AStr (Path config)).
Proof. unfold run_record, commonData. guards; by simplify_map_eq. Qed.

Lemma run_record_Interval host runData :
  run_record w config host runData !! "Interval"
  = Some (AStr (echoed_Interval config)).
Proof. unfold run_record, commonData, echoed_Interval. guards; by simplify_map_eq. Qed.

Lemma run_record_Command host runData :
  run_record w config host runData !! "Command" = echoed (Command config).
Proof. unfold run_record, commonData, echoed. guards; by simplify_map_eq. Qed.

Lemma run_record_GoStruct host runData :
  run_record w config host runData !! "GoStruct" = echoed (GoStruct config).
Proof. unfold run_record, commonData, echoed. guards; by simplify_map_eq. Qed.

Lemma run_record_Data host runData :
  run_record w config host runData !! "Data" = Some (AMap runData).
Proof. unfold run_record. by simplify_map_eq. Qed.

Lemma stored_after_put recordInJson record key :
  json_Marshal w (AMap record) = (recordInJson, None) →
  stored_record w (mkAgent (<[key := recordInJson]> (Db a)) (Tags a)) key record.
Proof.
  intros Hm. exists recordInJson. unfold GetRunByPath. simpl.
  by rewrite lookup_insert_eq.
Qed.

End run_shape.

Lemma pathWithPrefix_reader config :
  Kind config = "reader" → pathWithPrefix config = "/r" +:+ Path config.
Proof. unfold pathWithPrefix. intros. by guards. Qed.

Lemma pathWithPrefix_writer config :
  Kind config = "writer" → pathWithPrefix config = "/w" +:+ Path config.
Proof. unfold pathWithPrefix. intros Hk. rewrite Hk. by guards. Qed.

(** ** Persistence of a run *)

(** C1 (as amended). For every config with a non-empty [Path]: a run that
    returns no error leaves, under the kind-prefixed path, the serialization
    of a record whose [Path], [Command] and [GoStruct] echo the config (the
    last two only when set) and whose [Interval] is the config's, or "1m"
    when the config has none, and [GetRunByPath] returns it; a run that
    returns an error leaves the store as it was. The key is "/r" + path for
    a reader and "/w" + path for a writer. *)
Theorem C1_record_after_run (w : World) (a : Agent) (config : Config)
    (out : bytes) (err : option error) (a' : Agent) :
  Path config ≠ "" →
  Run w a config = ((out, err), a') →
  match err with
  | None =>
      ∃ record,
        stored_record w a' (pathWithPrefix config) record ∧
        record !! "Path" = Some (AStr (Path config)) ∧
        record !! "Interval" = Some (AStr (echoed_Interval config)) ∧
        record !! "Command" = echoed (Command config) ∧
        record !! "GoStruct" = echoed (GoStruct config)
  | Some _ => a' = a
  end ∧
  (Kind config = "reader" → pathWithPrefix config = "/r" +:+ Path config) ∧
  (Kind config = "writer" → pathWithPrefix config = "/w" +:+ Path config).
Proof.
  intros Hp Hrun. split; [|split; [apply pathWithPrefix_reader | apply pathWithPrefix_writer]].
  destruct err as [e|]; [by eapply Run_error_unchanged|].
  apply Run_inv in Hrun as [(_ & _ & [? [=]])|(_ & Hs)].
  apply saveRun_ok_inv in Hs as (host & runData & recordInJson & _ & _ & Hm & _ & ->);
    [|done].
  exists (run_record w config host runData). split_and!.
  - by apply stored_after_put.
  - apply run_record_Path.
  - apply run_record_Interval.
  - apply run_record_Command.
  - apply run_record_GoStruct.
Qed.

Lemma C1_record_after_run_witness :
  (∃ record,
     stored_record Demo.world_echo (Run Demo.world_echo Demo.agent0 Demo.reader_echo).2
       "/r/x" record ∧
     record !! "Path" = Some (AStr "/x") ∧
     record !! "Interval" = Some (AStr "1m") ∧
     record !! "Command" = Some (AStr "echo") ∧
     record !! "GoStruct" = None) ∧
  (Kind Demo.reader_echo = "reader" → "/r/x" = "/r" +:+ Path Demo.reader_echo) ∧
  (Kind Demo.reader_echo = "writer" → "/r/x" = "/w" +:+ Path Demo.reader_echo).
Proof.
  apply (C1_record_after_run Demo.world_echo Demo.agent0 Demo.reader_echo
           "{}" None (Run Demo.world_echo Demo.agent0 Demo.reader_echo).2).
  - discriminate.
  - vm_compute. reflexivity.
Defined.

(** The claim as stated fails on a run that returns an error: the command
    of [reader_false] exits with status 1, and after the run the store holds
    nothing under "/r/x". It also fails on the [Interval] of a config that
    has none: the record of [reader_echo] carries "1m". *)
Lemma C1_counterexample :
  (Path Demo.reader_false ≠ "" ∧
   (Run Demo.world_failing Demo.agent0 Demo.reader_false).1
     = ("", Some "exit status 1") ∧
   Db (Run Demo.world_failing Demo.agent0 Demo.reader_false).2
     !! pathWithPrefix Demo.reader_false = None ∧
   GetRunByPath (Run Demo.world_failing Demo.agent0 Demo.reader_false).2
     (pathWithPrefix Demo.reader_false) = ("", None)) ∧
  (Path Demo.reader_echo ≠ "" ∧
   Interval Demo.reader_echo = "" ∧
   (Run Demo.world_echo Demo.agent0 Demo.reader_echo).1 = ("{}", None) ∧
   ∃ host,
     Db (Run Demo.world_echo Demo.agent0 Demo.reader_echo).2
       !! pathWithPrefix Demo.reader_echo
     = Some (Demo.marshal (AMap (run_record Demo.world_echo Demo.reader_echo host ∅))) ∧
     run_record Demo.world_echo Demo.reader_echo host ∅ !! "Interval"
     = Some (AStr "1m")).
Proof.
  split.
  - split_and!; [discriminate | by vm_compute..].
  - split_and!; [discriminate | by vm_compute..|].
    exists (mkHost "localhost" []). split; by vm_compute.
Qed.

(** C9. For every config whose [Interval] is empty, the record [commonData]
    builds carries the [Interval] "1m", and so does the record a run of that
    config persists. *)
Theorem C9_default_interval (w : World) (a : Agent) (config : Config)
    (out : bytes) (a' : Agent) :
  Interval config = "" →
  commonData w config !! "Interval" = Some (AStr "1m") ∧
  (Path config ≠ "" →
   Run w a config = ((out, None), a') →
   ∃ record,
     stored_record w a' (pathWithPrefix config) record ∧
     record !! "Interval" = Some (AStr "1m")).
Proof.
  intros Hi. split.
  - unfold commonData. guards; by simplify_map_eq.
  - intros Hp Hrun.
    apply Run_inv in Hrun as [(_ & _ & [? [=]])|(_ & Hs)].
    apply saveRun_ok_inv in Hs as (host & runData & recordInJson & _ & _ & Hm & _ & ->);
      [|done].
    exists (run_record w config host runData). split.
    + by apply stored_after_put.
    + rewrite run_record_Interval. unfold echoed_Interval. by guards.
Qed.

Lemma C9_default_interval_witness :
  commonData Demo.world_echo Demo.reader_echo !! "Interval" = Some (AStr "1m") ∧
  ∃ record,
    stored_record Demo.world_echo (Run Demo.world_echo Demo.agent0 Demo.reader_echo).2
      (pathWithPrefix Demo.reader_echo) record ∧
    record !! "Interval" = Some (AStr "1m").
Proof.
  destruct (C9_default_interval Demo.world_echo Demo.agent0 Demo.reader_echo
              "{}" (Run Demo.world_echo Demo.agent0 Demo.reader_echo).2)
    as [Hc Hr].
  - reflexivity.
  - split; [exact Hc|]. apply Hr.
    + discriminate.
    + vm_compute. reflexivity.
Defined.

(** ** Dispatch and errors *)

(** C6 (as amended). For every config matched by none of the three
    dispatch arms, nothing is executed and the output is empty; [Run] then
    goes on to [saveRun] with that empty output, so with an empty [Path] it
    returns no error and leaves the agent as it was, and with a non-empty
    [Path] its error and its effect on the store are those of [saveRun] on
    the empty output. *)
Theorem C6_unmatched_run (w : World) (a : Agent) (config : Config) :
  unmatched config →
  Run_dispatch w a config = ("", None) ∧
  Run w a config = (("", (saveRun w a config "").1), (saveRun w a config "").2) ∧
  (Path config = "" → Run w a config = (("", None), a)).
Proof.
  intros Hd%(dispatch_unmatched w a). split_and!; [done|by apply Run_dispatch_ok|].
  intros Hp. rewrite (Run_dispatch_ok _ _ _ _ Hd).
  by rewrite (saveRun_no_path _ _ _ _ Hp).
Qed.

Lemma C6_unmatched_run_witness :
  Run_dispatch Demo.world_echo Demo.agent0 Demo.reader_empty_no_path = ("", None) ∧
  Run Demo.world_echo Demo.agent0 Demo.reader_empty_no_path
    = (("", (saveRun Demo.world_echo Demo.agent0 Demo.reader_empty_no_path "").1),
       (saveRun Demo.world_echo Demo.agent0 Demo.reader_empty_no_path "").2) ∧
  (Path Demo.reader_empty_no_path = "" →
   Run Demo.world_echo Demo.agent0 Demo.reader_empty_no_path = (("", None), Demo.agent0)).
Proof.
  apply (C6_unmatched_run Demo.world_echo Demo.agent0 Demo.reader_empty_no_path).
  split; [reflexivity | left; reflexivity].
Defined.

(** The claim as stated fails for a non-empty [Path]: [reader_empty] sets
    neither [Command] nor [GoStruct], and its run returns the error of
    decoding the empty output. *)
Lemma C6_counterexample :
  unmatched Demo.reader_empty ∧
  Run Demo.world_echo Demo.agent0 Demo.reader_empty
    = (("", Some "unexpected end of JSON input"), Demo.agent0).
Proof.
  split; [|by vm_compute].
  split; [reflexivity | left; reflexivity].
Qed.

(** C7. For every run whose executor succeeds with an output that, when
    [saveRun] reaches the decoding step ([Path] set, host snapshot taken),
    does not decode, [Run] returns the decoding error together with the raw
    output, and the store is as before. *)
Theorem C7_unparsable_output (w : World) (a : Agent) (config : Config)
    (output : bytes) (host : Host) (partial : gmap string any) (e : error) :
  Run_dispatch w a config = (output, None) →
  Path config ≠ "" →
  hostData w a = Ok host →
  json_Unmarshal_map w output = (partial, Some e) →
  Run w a config = ((output, Some e), a).
Proof.
  intros Hd Hp Hh Hu. rewrite (Run_dispatch_ok _ _ _ _ Hd).
  by rewrite (saveRun_unparsable _ _ _ _ _ _ _ Hp Hh Hu).
Qed.

Lemma C7_unparsable_output_witness :
  Run Demo.world_date Demo.agent0 Demo.reader_date
    = (("Fri Oct 30", Some "invalid character looking for beginning of value"),
       Demo.agent0).
Proof.
  apply (C7_unparsable_output Demo.world_date Demo.agent0 Demo.reader_date
           "Fri Oct 30" (mkHost "localhost" []) ∅).
  - reflexivity.
  - discriminate.
  - reflexivity.
  - reflexivity.
Defined.

Lemma runCommand_stdin (w : World) (a : Agent) (config : Config) (stdin : option bytes) :
  shell_out_stdin w a config stdin →
  runCommand w a config = cmd_Output w (mkCmd (Command config) stdin).
Proof.
  unfold runCommand. intros [b Hk Hm|Hk]; simpl; guards. by rewrite Hm.
Qed.

Lemma processJson_command_fails (w : World) (config : Config) (writer : writers.IWriter)
    (readersDataJsonBytes out : bytes) (e : error) :
  writers.GetJsonProcessor writer ≠ "" →
  json_Marshal w (AMap (writers.GetReadersData writer)) = (readersDataJsonBytes, None) →
  cmd_Output w (mkCmd (writers.GetJsonProcessor writer) (Some readersDataJsonBytes))
    = (out, Some e) →
  processJson w config writer = (Some e, writer).
Proof. unfold processJson. intros Hp Hm Hc. guards. simpl. by rewrite Hm, Hc. Qed.

Lemma processJson_output_unparsable (w : World) (config : Config)
    (writer : writers.IWriter) (readersDataJsonBytes out : bytes)
    (partial : gmap string any) (e : error) :
  writers.GetJsonProcessor writer ≠ "" →
  json_Marshal w (AMap (writers.GetReadersData writer)) = (readersDataJsonBytes, None) →
  cmd_Output w (mkCmd (writers.GetJsonProcessor writer) (Some readersDataJsonBytes))
    = (out, None) →
  json_Unmarshal_map w out = (partial, Some e) →
  processJson w config writer = (Some e, writer).
Proof. unfold processJson. intros Hp Hm Hc Hu. guards. simpl. by rewrite Hm, Hc, Hu. Qed.

(** C5. For every run in which the shell-out command fails, and for every
    in-process writer run in which the post-processing command fails or
    prints what does not decode, [Run] returns that error (with the output
    of the failed command in the shell-out case, none otherwise) and the
    agent, hence every stored record, is unchanged. *)
Theorem C5_execution_failure (w : World) (a : Agent) (config : Config)
    (out : bytes) (e : error) :
  execution_failure w a config out e →
  Run w a config = ((out, Some e), a) ∧
  GetRunByPath (Run w a config).2 (pathWithPrefix config)
    = GetRunByPath a (pathWithPrefix config).
Proof.
  intros Hf.
  assert (Run w a config = ((out, Some e), a)) as Hrun; [|by rewrite Hrun].
  apply Run_dispatch_error.
  destruct Hf as [stdin out e Hd Hin Hc|writer b out e Hd Hi Hp Hm Hc
                 |writer b out partial e Hd Hi Hp Hm Hc Hu].
  - rewrite (dispatch_shell_out _ _ _ Hd).
    by rewrite (runCommand_stdin _ _ _ _ Hin).
  - rewrite (dispatch_in_process_writer _ _ _ Hd).
    unfold runGoStructWriter. rewrite Hi.
    by rewrite (processJson_command_fails _ _ _ _ _ _ Hp Hm Hc).
  - rewrite (dispatch_in_process_writer _ _ _ Hd).
    unfold runGoStructWriter. rewrite Hi.
    by rewrite (processJson_output_unparsable _ _ _ _ _ _ _ Hp Hm Hc Hu).
Qed.

Lemma C5_execution_failure_witness :
  Run Demo.world_failing Demo.agent_cpu Demo.reader_false
    = (("", Some "exit status 1"), Demo.agent_cpu) ∧
  GetRunByPath (Run Demo.world_failing Demo.agent_cpu Demo.reader_false).2
    (pathWithPrefix Demo.reader_false)
  = GetRunByPath Demo.agent_cpu (pathWithPrefix Demo.reader_false).
Proof.
  apply (C5_execution_failure Demo.world_failing Demo.agent_cpu Demo.reader_false).
  apply (shell_out_failure _ _ _ None).
  - discriminate.
  - apply stdin_none. discriminate.
  - reflexivity.
Defined.

(** The post-processing command of an in-process writer fails. *)
Example post_processor_fails :
  Run Demo.world_jq Demo.agent_cpu Demo.writer_plain
    = (("", Some "exit status 1"), Demo.agent_cpu).
Proof. by vm_compute. Qed.

(** C4 (as amended). For every config dispatched in-process whose
    [GoStruct] is not in the registry of its kind, [Run] returns the
    construction error with no output and persists nothing: the agent is
    unchanged, whatever [Path] is. *)
Theorem C4_unregistered_type (w : World) (a : Agent) (config : Config) :
  in_process_reader config ∧ readerConstructors w !! GoStruct config = None ∨
  in_process_writer config ∧ writerConstructors w !! GoStruct config = None →
  ∃ e,
    (initGoStructReader w a config = Err e ∨ initGoStructWriter w a config = Err e) ∧
    Run w a config = (("", Some e), a).
Proof.
  intros [[Hd Hr]|[Hd Hr]].
  - exists readers.ErrUndefined.
    assert (initGoStructReader w a config = Err readers.ErrUndefined) as Hi.
    { unfold initGoStructReader, readers.NewGoStructByConfig. by rewrite Hr. }
    split; [by left|]. apply Run_dispatch_error.
    rewrite (dispatch_in_process_reader _ _ _ Hd).
    unfold runGoStructReader. by rewrite Hi.
  - exists writers.ErrUndefined.
    assert (initGoStructWriter w a config = Err writers.ErrUndefined) as Hi.
    { unfold initGoStructWriter, writers.NewGoStructByConfig. by rewrite Hr. }
    split; [by right|]. apply Run_dispatch_error.
    rewrite (dispatch_in_process_writer _ _ _ Hd).
    unfold runGoStructWriter. by rewrite Hi.
Qed.

Lemma C4_unregistered_type_witness :
  ∃ e,
    (initGoStructReader Demo.world_failing Demo.agent0 Demo.reader_nope = Err e ∨
     initGoStructWriter Demo.world_failing Demo.agent0 Demo.reader_nope = Err e) ∧
    Run Demo.world_failing Demo.agent0 Demo.reader_nope = (("", Some e), Demo.agent0).
Proof.
  apply (C4_unregistered_type Demo.world_failing Demo.agent0 Demo.reader_nope).
  left. split.
  - split_and!; [reflexivity | discriminate | reflexivity].
  - reflexivity.
Defined.

(** The claim as stated fails on its second half: [reader_nope] names a
    type that is not registered and sets [Path], and after the run the store
    holds no record under "/r/x". *)
Lemma C4_counterexample :
  readerConstructors Demo.world_failing !! GoStruct Demo.reader_nope = None ∧
  in_process_reader Demo.reader_nope ∧
  Path Demo.reader_nope ≠ "" ∧
  (Run Demo.world_failing Demo.agent0 Demo.reader_nope).1
    = ("", Some "GoStruct is undefined.") ∧
  Db (Run Demo.world_failing Demo.agent0 Demo.reader_nope).2
    !! pathWithPrefix Demo.reader_nope = None.
Proof.
  split_and!; try reflexivity; try discriminate.
  split_and!; [reflexivity | discriminate | reflexivity].
Qed.

Lemma runGoStruct_failing (w : World) (reader reader' : readers.IReader) (msg : error) :
  readers.Run reader = (reader', Some msg) →
  runGoStruct w reader = json_Marshal w (any_of_strmap {["Error" := msg]}).
Proof. unfold runGoStruct. by intros ->. Qed.

Lemma error_payload_value (msg : error) :
  any_of_strmap {["Error" := msg]} = AMap {["Error" := AStr msg]}.
Proof. unfold any_of_strmap. by rewrite map_fmap_singleton. Qed.

(** C2. For every reader config dispatched in-process whose task is
    constructed and whose [Run] fails with [msg]: the output of [Run] is the
    serialization of the one-field map with "Error" bound to [msg]; the
    error [Run] returns is the one of persisting that output, never the
    collector's; with an empty [Path] there is none; with a non-empty [Path],
    once the host snapshot, the codec and the store transaction succeed, the
    store holds under the kind-prefixed path the record whose [Data] is that
    one-field map. *)
Theorem C2_failing_reader (w : World) (a : Agent) (config : Config)
    (reader reader' : readers.IReader) (msg : error) (payload : bytes) :
  in_process_reader config →
  initGoStructReader w a config = Ok reader →
  readers.Run reader = (reader', Some msg) →
  json_Marshal w (AMap {["Error" := AStr msg]}) = (payload, None) →
  Run w a config
    = ((payload, (saveRun w a config payload).1), (saveRun w a config payload).2) ∧
  (Path config = "" → Run w a config = ((payload, None), a)) ∧
  (∀ host recordInJson,
     Path config ≠ "" →
     hostData w a = Ok host →
     json_Unmarshal_map w payload = ({["Error" := AStr msg]}, None) →
     json_Marshal w (AMap (run_record w config host {["Error" := AStr msg]}))
       = (recordInJson, None) →
     Db_Update_Put_err w (pathWithPrefix config) recordInJson = None →
     (Run w a config).1 = (payload, None) ∧
     stored_record w (Run w a config).2 (pathWithPrefix config)
       (run_record w config host {["Error" := AStr msg]}) ∧
     run_record w config host {["Error" := AStr msg]} !! "Data"
       = Some (AMap {["Error" := AStr msg]})).
Proof.
  intros Hd Hi Hr Hm.
  assert (Run_dispatch w a config = (payload, None)) as Hdispatch.
  { rewrite (dispatch_in_process_reader _ _ _ Hd).
    unfold runGoStructReader. rewrite Hi.
    rewrite (runGoStruct_failing _ _ _ _ Hr).
    by rewrite error_payload_value. }
  pose proof (Run_dispatch_ok _ _ _ _ Hdispatch) as Hrun.
  split_and!.
  - done.
  - intros Hp. by rewrite Hrun, (saveRun_no_path _ _ _ _ Hp).
  - intros host recordInJson Hp Hh Hu Hrec Hput.
    rewrite Hrun, (saveRun_ok _ _ _ _ _ _ _ Hp Hh Hu Hrec Hput). simpl.
    split_and!; [done|by apply stored_after_put|apply run_record_Data].
Qed.

Lemma C2_failing_reader_witness :
  (Run Demo.world_boom Demo.agent0 Demo.reader_boom).1
    = (Demo.marshal (AMap {["Error" := AStr "boom"]}), None) ∧
  stored_record Demo.world_boom (Run Demo.world_boom Demo.agent0 Demo.reader_boom).2
    "/r/x"
    (run_record Demo.world_boom Demo.reader_boom (mkHost "localhost" [])
       {["Error" := AStr "boom"]}) ∧
  run_record Demo.world_boom Demo.reader_boom (mkHost "localhost" [])
    {["Error" := AStr "boom"]} !! "Data"
  = Some (AMap {["Error" := AStr "boom"]}).
Proof.
  destruct (C2_failing_reader Demo.world_boom Demo.agent0 Demo.reader_boom
              (Demo.failing_reader "boom") (Demo.failing_reader "boom") "boom"
              (Demo.marshal (AMap {["Error" := AStr "boom"]})))
    as (_ & _ & Hstored).
  - split_and!; [reflexivity | discriminate | reflexivity].
  - reflexivity.
  - reflexivity.
  - reflexivity.
  - apply (Hstored (mkHost "localhost" [])
             (Demo.marshal
                (AMap (run_record Demo.world_boom Demo.reader_boom
                         (mkHost "localhost" []) {["Error" := AStr "boom"]})))).
    + discriminate.
    + reflexivity.
    + vm_compute. reflexivity.
    + reflexivity.
    + reflexivity.
Defined.

(** ** Upstream reader data of a writer *)

(** On the shell-out path an entry is made only for a path whose stored
    bytes decode: with a record under the first path, none under the second,
    and a decoder that rejects the empty input, the mapping has the first
    path only. *)
Lemma shell_out_readersData (w : World) (a : Agent) (config : Config)
    (p1 p2 : string) (record : bytes) (data partial : any) (e : error) :
  ReaderPaths config = [p1; p2] →
  Db a !! pathWithReaderPrefix (InString p1) = Some record →
  Db a !! pathWithReaderPrefix (InString p2) = None →
  json_Unmarshal w record = (data, None) →
  json_Unmarshal w "" = (partial, Some e) →
  runCommand_readersData w a config = {[p1 := data]}.
Proof.
  intros Hpaths H1 H2 Hrec Hnil.
  unfold runCommand_readersData, GetRunByPath. rewrite Hpaths. cbn [foldl].
  rewrite H1, H2. simpl. by rewrite Hrec, Hnil.
Qed.

(** On the in-process path the raw mapping binds both paths, the second
    to the empty bytes. *)
Lemma in_process_raw_readersData (a : Agent) (config : Config)
    (p1 p2 : string) (record : bytes) :
  ReaderPaths config = [p1; p2] →
  Db a !! pathWithReaderPrefix (InString p1) = Some record →
  Db a !! pathWithReaderPrefix (InString p2) = None →
  initGoStructWriter_readersData a config = <[p2 := ""]> {[p1 := record]}.
Proof.
  intros Hpaths H1 H2.
  unfold initGoStructWriter_readersData, GetRunByPath. rewrite Hpaths.
  cbn [foldl]. by rewrite H1, H2.
Qed.

(** Decoding that raw mapping leaves the first path only. *)
Lemma decode_raw_two_paths (unmarshal : bytes → any * option error)
    (p1 p2 : string) (record : bytes) (data partial : any) (e : error) :
  p1 ≠ p2 →
  unmarshal record = (data, None) →
  unmarshal "" = (partial, Some e) →
  decode_raw unmarshal (<[p2 := ""]> {[p1 := record]}) = {[p1 := data]}.
Proof.
  intros Hne Hrec Hnil. unfold decode_raw.
  rewrite omap_insert_None by (by rewrite Hnil).
  rewrite omap_singleton_Some with (y := data) by (by rewrite Hrec).
  by rewrite delete_singleton_ne.
Qed.

(** C3. For every writer config with [ReaderPaths = [p1, p2]] where the
    store holds a record for [p1], which decodes, and none for [p2] (the
    decoder rejecting the empty bytes a missing record reads as): on the
    shell-out path the mapping fed to the command binds [p1] only, and the
    command is run on its serialization; on the in-process path the writer,
    its [SetReadersDataInBytes] being the spec's, is constructed without
    error and holds a mapping that binds [p1] only. The missing record of
    [p2] produces no error on either path. *)
Theorem C3_upstream_readersData (w : World) (a : Agent) (config : Config)
    (p1 p2 : string) (record : bytes) (data partial : any) (e : error) :
  ReaderPaths config = [p1; p2] →
  Db a !! pathWithReaderPrefix (InString p1) = Some record →
  Db a !! pathWithReaderPrefix (InString p2) = None →
  json_Unmarshal w record = (data, None) →
  json_Unmarshal w "" = (partial, Some e) →
  (runCommand_readersData w a config = {[p1 := data]} ∧
   dom (runCommand_readersData w a config) = ({[p1]} : gset string) ∧
   ∀ readersDataJsonBytes,
     Kind config = "writer" →
     json_Marshal w (AMap {[p1 := data]}) = (readersDataJsonBytes, None) →
     runCommand w a config
     = cmd_Output w (mkCmd (Command config) (Some readersDataJsonBytes))) ∧
  (∀ constructed : writers.IWriter,
     writers.NewGoStructByConfig (writerConstructors w) config = Ok constructed →
     spec_writer w constructed →
     ∃ writer,
       initGoStructWriter w a config = Ok writer ∧
       writers.GetReadersData writer = {[p1 := data]} ∧
       dom (writers.GetReadersData writer) = ({[p1]} : gset string)).
Proof.
  intros Hpaths H1 H2 Hrec Hnil.
  assert (p1 ≠ p2) as Hne by (intros ->; congruence).
  pose proof (shell_out_readersData _ _ _ _ _ _ _ _ _ Hpaths H1 H2 Hrec Hnil) as Hshell.
  split; [split_and!|].
  - done.
  - by rewrite Hshell, dom_singleton_L.
  - intros stdin Hk Hm. unfold runCommand.
    rewrite decide_True by done. by rewrite Hshell, Hm.
  - intros constructed Hnew Hspec.
    exists (writers.SetReadersDataInBytes (initGoStructWriter_readersData a config)
              constructed).
    assert (writers.GetReadersData
              (writers.SetReadersDataInBytes (initGoStructWriter_readersData a config)
                 constructed) = {[p1 := data]}) as Hheld.
    { rewrite Hspec, (in_process_raw_readersData _ _ _ _ _ Hpaths H1 H2).
      by eapply decode_raw_two_paths. }
    split_and!.
    + unfold initGoStructWriter. by rewrite Hnew.
    + done.
    + by rewrite Hheld, dom_singleton_L.
Qed.

Lemma C3_upstream_readersData_witness :
  (runCommand_readersData Samples.world_decoding Demo.agent_cpu Samples.writer_decoding
     = {["/cpu" := AMap ∅]} ∧
   dom (runCommand_readersData Samples.world_decoding Demo.agent_cpu Samples.writer_decoding)
     = ({["/cpu"]} : gset string) ∧
   runCommand Samples.world_decoding Demo.agent_cpu Samples.writer_decoding
     = cmd_Output Samples.world_decoding
         (mkCmd (Command Samples.writer_decoding)
            (Some (Demo.marshal (AMap {["/cpu" := AMap ∅]}))))) ∧
  spec_writer Samples.world_decoding (Samples.decoding_writer (Demo.unmarshal [∅])) ∧
  ∃ writer,
    initGoStructWriter Samples.world_decoding Demo.agent_cpu Samples.writer_decoding
      = Ok writer ∧
    writers.GetReadersData writer = {["/cpu" := AMap ∅]} ∧
    dom (writers.GetReadersData writer) = ({["/cpu"]} : gset string).
Proof.
  assert (spec_writer Samples.world_decoding
            (Samples.decoding_writer (Demo.unmarshal [∅]))) as Hspec.
  { intros raw. reflexivity. }
  destruct (C3_upstream_readersData Samples.world_decoding Demo.agent_cpu
              Samples.writer_decoding "/cpu" "/mem" "{}" (AMap ∅) ANil
              "unexpected end of JSON input")
    as [(Hdata & Hdom & Hcmd) Hwriter]; [reflexivity..|].
  split_and!.
  - exact Hdata.
  - exact Hdom.
  - apply Hcmd; reflexivity.
  - exact Hspec.
  - apply (Hwriter (Samples.decoding_writer (Demo.unmarshal [∅]))); [reflexivity|].
    exact Hspec.
Defined.

(** The same store and paths on the shell-out path: only "/cpu" is bound. *)
Example shell_out_readersData_cpu :
  runCommand_readersData Demo.world_echo Demo.agent_cpu Demo.writer_plain
  = {["/cpu" := AMap ∅]}.
Proof.
  by apply (shell_out_readersData _ _ _ "/cpu" "/mem" "{}" (AMap ∅) ANil
              "unexpected end of JSON input").
Qed.

(** ** The dispatch loop *)

Import Dispatch.

Lemma local_step_not_in_loop fresh g ev g' config quit caller :
  local_step fresh g ev g' → ctl g ≠ InRunForever config quit caller.
Proof. intros Hstep Hctl. destruct Hstep; congruence. Qed.

(** From inside the loop, the only step is another [Run] of the same
    config: there is no second goroutine to send on [quit]. *)
Lemma in_loop_step config s ev s' :
  in_loop config s → step s ev s' → ev = EvRun config ∧ s' = s.
Proof.
  intros (quit & caller & table & Hpool) Hstep.
  destruct Hstep as [s i g ev g' Hi Hlocal|s i g config' quit' caller' Hi Hctl _
                    |s i j gi gj quit' rest cs config' caller' Hne Hi _ Hj _].
  - rewrite Hpool in Hi. apply list_lookup_singleton_Some in Hi as [_ <-].
    by apply local_step_not_in_loop with (config := config) (quit := quit)
         (caller := caller) in Hlocal.
  - rewrite Hpool in Hi. apply list_lookup_singleton_Some in Hi as [_ <-].
    simpl in Hctl. by simplify_eq.
  - rewrite Hpool in Hi, Hj.
    apply list_lookup_singleton_Some in Hi as [-> _].
    apply list_lookup_singleton_Some in Hj as [-> _]. done.
Qed.

Lemma in_loop_exec config s tr s' :
  in_loop config s → exec s tr s' → Forall (λ ev, ev = EvRun config) tr.
Proof.
  intros Hloop Hexec. induction Hexec as [|s ev s' tr s'' Hstep _ IH]; [done|].
  destruct (in_loop_step _ _ _ _ Hloop Hstep) as [-> ->].
  constructor; [done | by apply IH].
Qed.

(** The first configuration set, received in the initial state, leaves the
    goroutine at the head of the range over its readers. *)
Lemma initial_receives configStorage s :
  step initial (EvConfig configStorage) s →
  s = mkSystem
        [mkGoroutine (RangeReaders (Readers configStorage) configStorage) ∅] 0.
Proof.
  inversion 1 as [s0 i g ev g' Hi Hlocal| |]; subst.
  apply list_lookup_singleton_Some in Hi as [-> <-].
  inversion Hlocal as [? ? ? _ Hsize| | | | | |]; subst; simpl in *.
  - rewrite map_size_empty in Hsize. lia.
  - done.
Qed.

(** With a reader at the head of the range, the next step enters its loop,
    on the channel just made. *)
Lemma first_reader_loops config rest configStorage ev s :
  step (mkSystem [mkGoroutine (RangeReaders (config :: rest) configStorage) ∅] 0) ev s →
  ev = EvLoop config 0 ∧ in_loop config s.
Proof.
  inversion 1 as [s0 i g ev0 g' Hi Hlocal|s0 i g ? ? ? Hi Hctl
                 |s0 i j gi gj ? ? ? ? ? Hne Hi Hctl]; subst; simpl in *.
  - apply list_lookup_singleton_Some in Hi as [-> <-].
    inversion Hlocal; subst; simpl in *; simplify_eq.
    split; [done|]. by eexists _, _, _.
  - apply list_lookup_singleton_Some in Hi as [-> <-]. done.
  - apply list_lookup_singleton_Some in Hi as [-> <-]. done.
Qed.

(** Every trace that starts with the reception of a configuration set
    whose first reader is [config]: after it, the loop of [config] is
    entered, and then [config] is run again and again. *)
Lemma traces_after_first_config configStorage config rest tr s :
  Readers configStorage = config :: rest →
  exec initial (EvConfig configStorage :: tr) s →
  tr = [] ∨ ∃ runs, tr = EvLoop config 0 :: runs ∧ Forall (λ ev, ev = EvRun config) runs.
Proof.
  intros Hreaders Hexec.
  inversion Hexec as [|? ? s1 ? ? Hstep1 Hexec1]; subst.
  apply initial_receives in Hstep1 as ->. rewrite Hreaders in Hexec1.
  inversion Hexec1 as [|? ev s2 runs ? Hstep2 Hexec2]; subst; [by left|].
  apply first_reader_loops in Hstep2 as [-> Hloop].
  right. exists runs. split; [done|]. by eapply in_loop_exec.
Qed.

(** C8 (as the code runs). After the reception of a configuration set whose
    first reader is [config], in every execution: the only loop ever
    entered is the one of [config], on the first channel made; the only
    config ever run is [config]; no quit signal is ever exchanged; no later
    configuration set is ever received. The loops of the other entries are
    never started. *)
Theorem C8_only_first_loop_runs (configStorage : ConfigStorage) (config : Config)
    (rest : list Config) (tr : list event) (s : system) :
  Readers configStorage = config :: rest →
  exec initial (EvConfig configStorage :: tr) s →
  (∀ config' quit, EvLoop config' quit ∈ tr → config' = config ∧ quit = 0) ∧
  (∀ config', EvRun config' ∈ tr → config' = config) ∧
  (∀ quit, EvQuit quit ∉ tr) ∧
  (∀ configStorage', EvConfig configStorage' ∉ tr).
Proof.
  intros Hreaders Hexec.
  destruct (traces_after_first_config _ _ _ _ _ Hreaders Hexec)
    as [->|(runs & -> & Hruns)].
  { split_and!;
      [intros ? ? []%elem_of_nil | intros ? []%elem_of_nil
      | intros; apply not_elem_of_nil..]. }
  rewrite Forall_forall in Hruns.
  split_and!.
  - intros config' quit [[= -> ->]|Hin%Hruns]%elem_of_cons; done.
  - intros config' [[=]|Hin%Hruns]%elem_of_cons. by simplify_eq.
  - intros quit [[=]|Hin%Hruns]%elem_of_cons. done.
  - intros configStorage' [[=]|Hin%Hruns]%elem_of_cons. done.
Qed.

(** An execution on the configuration set with the readers "/cpu" and
    "/mem": the loop of "/cpu" is entered and runs twice. *)
Lemma two_readers_exec :
  exec initial
    [EvConfig Demo.two_readers; EvLoop Demo.reader_cpu 0;
     EvRun Demo.reader_cpu; EvRun Demo.reader_cpu]
    (mkSystem
       [mkGoroutine (InRunForever Demo.reader_cpu 0 (RangeReaders [Demo.reader_mem] Demo.two_readers))
          {["/cpu" := 0]}]
       1).
Proof.
  eapply exec_cons.
  { apply (step_local initial 0 (mkGoroutine AtSelect ∅) (EvConfig Demo.two_readers));
      [reflexivity|]. by apply step_receive. }
  eapply exec_cons.
  { eapply (step_local _ 0 _ (EvLoop Demo.reader_cpu 0)); [reflexivity|].
    by eapply (step_reader 0 _ Demo.reader_cpu). }
  assert (∀ s, in_loop Demo.reader_cpu s → step s (EvRun Demo.reader_cpu) s) as Hrun.
  { intros s (quit & caller & table & Hpool).
    eapply (step_default s 0); [by rewrite Hpool|done|].
    intros j g'. rewrite Hpool. intros [_ <-]%list_lookup_singleton_Some.
    by intros (? & ? & ?). }
  eapply exec_cons; [apply Hrun; by eexists _, _, _|].
  eapply exec_cons; [apply Hrun; by eexists _, _, _|].
  apply exec_nil.
Defined.

Lemma C8_only_first_loop_runs_witness :
  let tr := [EvLoop Demo.reader_cpu 0; EvRun Demo.reader_cpu; EvRun Demo.reader_cpu] in
  (∀ config' quit, EvLoop config' quit ∈ tr → config' = Demo.reader_cpu ∧ quit = 0) ∧
  (∀ config', EvRun config' ∈ tr → config' = Demo.reader_cpu) ∧
  (∀ quit, EvQuit quit ∉ tr) ∧
  (∀ configStorage', EvConfig configStorage' ∉ tr).
Proof.
  apply (C8_only_first_loop_runs Demo.two_readers Demo.reader_cpu [Demo.reader_mem] _ _
           eq_refl two_readers_exec).
Defined.

(** * Further properties of the agent *)

Set Warnings "-clear-no-such-hyp".

(** ** Storage keys *)

Lemma reader_key_shape (p : string) : "/r" +:+ p = String "/" (String "r" p).
Proof. reflexivity. Qed.

Lemma writer_key_shape (p : string) : "/w" +:+ p = String "/" (String "w" p).
Proof. reflexivity. Qed.

Lemma prepend_neq (c1 c2 : ascii) (s : string) : String c1 (String c2 s) ≠ s.
Proof. intros H%(f_equal String.length). simpl in H. lia. Qed.

(** Two configs of the prefixed kinds with the same key have the same kind
    and the same path. *)
Lemma pathWithPrefix_inj (c1 c2 : Config) :
  reader_or_writer c1 → reader_or_writer c2 →
  pathWithPrefix c1 = pathWithPrefix c2 →
  Kind c1 = Kind c2 ∧ Path c1 = Path c2.
Proof.
  intros [K1|K1] [K2|K2]; rewrite K1, K2;
    rewrite ?(pathWithPrefix_reader c1), ?(pathWithPrefix_writer c1),
      ?(pathWithPrefix_reader c2), ?(pathWithPrefix_writer c2) by done;
    rewrite ?reader_key_shape, ?writer_key_shape; intros [=]; done.
Qed.

(** X1. The key of a reader is "/r" followed by its path, the key of a
    writer "/w" followed by its path, and two reader or writer configs have
    the same key exactly when they have the same kind and the same path: a
    reader and a writer never share a key. *)
Theorem X1_keys_of_readers_and_writers (c1 c2 : Config) :
  reader_or_writer c1 → reader_or_writer c2 →
  (pathWithPrefix c1 = pathWithPrefix c2 ↔ Kind c1 = Kind c2 ∧ Path c1 = Path c2) ∧
  (Kind c1 = "reader" → Kind c2 = "writer" → pathWithPrefix c1 ≠ pathWithPrefix c2).
Proof.
  intros H1 H2. split; [split|].
  - by apply pathWithPrefix_inj.
  - intros [Hk Hp]. unfold pathWithPrefix, pathWithReaderPrefix, pathWithWriterPrefix,
      pathWithReaderOrWriterPrefix. by rewrite Hk, Hp.
  - intros K1 K2 [Hk _]%pathWithPrefix_inj; [|done..]. congruence.
Qed.

Lemma X1_keys_of_readers_and_writers_witness :
  (pathWithPrefix Demo.reader_echo = pathWithPrefix Samples.writer_x ↔
   Kind Demo.reader_echo = Kind Samples.writer_x ∧
   Path Demo.reader_echo = Path Samples.writer_x) ∧
  (Kind Demo.reader_echo = "reader" → Kind Samples.writer_x = "writer" →
   pathWithPrefix Demo.reader_echo ≠ pathWithPrefix Samples.writer_x).
Proof.
  apply (X1_keys_of_readers_and_writers Demo.reader_echo Samples.writer_x).
  - left. reflexivity.
  - right. reflexivity.
Defined.

(** A config of another kind is stored under its bare path, which can be the
    key of a reader. *)
Example bare_key_clash :
  pathWithPrefix Samples.other_r_x = pathWithPrefix Demo.reader_echo.
Proof. reflexivity. Qed.

(** X2. The key [saveRun] stores a reader under and the key a writer looks
    a reader path up under agree exactly when the path does not already
    start with "/r/": a reader whose path starts with "/r/" is stored with
    a second prefix, and looked up without it. *)
Theorem X2_lookup_key_agrees (config : Config) :
  pathWithReaderPrefix (InString (Path config)) = pathWithReaderPrefix (InConfig config)
  ↔ String.prefix "/r/" (Path config) = false.
Proof.
  unfold pathWithReaderPrefix, pathWithReaderOrWriterPrefix. cbv zeta.
  change (("/" +:+ "r") +:+ "/") with "/r/". change ("/" +:+ "r") with "/r".
  destruct (String.prefix "/r/" (Path config)); split; try done.
  rewrite reader_key_shape. intros H. symmetry in H. by apply prepend_neq in H.
Qed.

(** ** What a run does to the store *)

(** The agent after [saveRun]: as before, or with one key written. *)
Lemma saveRun_agent (w : World) (a : Agent) (config : Config) (output : bytes) :
  (saveRun w a config output).2 = a ∨
  ∃ recordInJson,
    Path config ≠ "" ∧
    saveRun w a config output
      = (None, mkAgent (<[pathWithPrefix config := recordInJson]> (Db a)) (Tags a)).
Proof.
  destruct (saveRun w a config output) as [[e|] a'] eqn:Hs.
  - left. by apply saveRun_error in Hs.
  - destruct (decide (Path config = "")) as [Hp|Hp].
    + left. rewrite (saveRun_no_path _ _ _ _ Hp) in Hs. by simplify_eq.
    + right. apply saveRun_ok_inv in Hs as (? & ? & recordInJson & _ & _ & _ & _ & ->);
        [|done]. by exists recordInJson.
Qed.

(** The agent after [Run]: as before, or with the key of the config
    written. *)
Lemma Run_agent (w : World) (a : Agent) (config : Config) :
  (Run w a config).2 = a ∨
  ∃ recordInJson,
    Path config ≠ "" ∧
    (Run w a config).2
      = mkAgent (<[pathWithPrefix config := recordInJson]> (Db a)) (Tags a).
Proof.
  destruct (Run_dispatch w a config) as [out [e|]] eqn:Hd.
  - left. by rewrite (Run_dispatch_error _ _ _ _ _ Hd).
  - rewrite (Run_dispatch_ok _ _ _ _ Hd). simpl.
    destruct (saveRun_agent w a config out) as [Hs|(rec & Hp & Hs)]; [by left|].
    right. exists rec. by rewrite Hs.
Qed.

(** X3. Whatever the config and the outcome, a run leaves the agent's tags
    as they were, changes no key of the store other than the key of the
    config, and removes no key. *)
Theorem X3_run_frame (w : World) (a : Agent) (config : Config) :
  Tags (Run w a config).2 = Tags a ∧
  (∀ key, key ≠ pathWithPrefix config →
     Db (Run w a config).2 !! key = Db a !! key) ∧
  dom (Db a) ⊆ dom (Db (Run w a config).2).
Proof.
  destruct (Run_agent w a config) as [->|(rec & _ & ->)]; [done|]. simpl.
  split_and!; [done| |].
  - intros key Hkey. by rewrite lookup_insert_ne.
  - rewrite dom_insert_L. set_solver.
Qed.

(** X4. A config with an empty [Path] is executed but never persisted: the
    result of [Run] is the result of the executor, and the agent is
    unchanged. *)
Theorem X4_no_path_no_record (w : World) (a : Agent) (config : Config) :
  Path config = "" →
  Run w a config = (Run_dispatch w a config, a).
Proof.
  intros Hp. destruct (Run_dispatch w a config) as [out [e|]] eqn:Hd.
  - by apply Run_dispatch_error.
  - by rewrite (Run_dispatch_ok _ _ _ _ Hd), (saveRun_no_path _ _ _ _ Hp).
Qed.

Lemma X4_no_path_no_record_witness :
  Run Demo.world_echo Demo.agent_cpu Samples.reader_echo_no_path
  = (("{}", None), Demo.agent_cpu).
Proof.
  apply (X4_no_path_no_record Demo.world_echo Demo.agent_cpu Samples.reader_echo_no_path).
  reflexivity.
Defined.

Lemma commonData_dom (w : World) (config : Config) :
  dom (commonData w config)
  = {["UnixNano"; "Path"; "Interval"]}
    ∪ (if decide (Command config ≠ "") then {["Command"]} else ∅)
    ∪ (if decide (GoStruct config ≠ "") then {["GoStruct"]} else ∅).
Proof.
  unfold commonData.
  repeat case_decide; rewrite ?dom_insert_L, dom_empty_L; set_solver.
Qed.

Lemma run_record_dom (w : World) (config : Config) (host : Host)
    (runData : gmap string any) :
  dom (run_record w config host runData) = record_keys config.
Proof.
  unfold run_record, record_keys. rewrite !dom_insert_L, commonData_dom.
  repeat case_decide; set_solver.
Qed.

Lemma run_record_Host (w : World) (config : Config) (host : Host)
    (runData : gmap string any) :
  run_record w config host runData !! "Host" = Some (AHost host).
Proof. unfold run_record. by simplify_map_eq. Qed.

Lemma run_record_UnixNano (w : World) (config : Config) (host : Host)
    (runData : gmap string any) :
  run_record w config host runData !! "UnixNano"
  = Some (AInt64 (time_Now_UnixNano w)).
Proof. unfold run_record, commonData. guards; by simplify_map_eq. Qed.

(** X5. The record a successful run persists: its [Data] is the decoded
    output of the run, its [Host] is the host snapshot with the agent's
    tags, its [UnixNano] is the clock, and its keys are UnixNano, Path,
    Interval, Host and Data, plus Command and GoStruct when the config sets
    them. *)
Theorem X5_record_content (w : World) (a : Agent) (config : Config)
    (out : bytes) (a' : Agent) :
  Path config ≠ "" →
  Run w a config = ((out, None), a') →
  ∃ host runData record,
    NewHostByHostname w = Ok host ∧
    json_Unmarshal_map w out = (runData, None) ∧
    stored_record w a' (pathWithPrefix config) record ∧
    record !! "Data" = Some (AMap runData) ∧
    record !! "Host" = Some (AHost (mkHost (HostName host) (Tags a))) ∧
    record !! "UnixNano" = Some (AInt64 (time_Now_UnixNano w)) ∧
    dom record = record_keys config.
Proof.
  intros Hp [(_ & _ & [? [=]])|(_ & Hs)]%Run_inv.
  apply saveRun_ok_inv in Hs as (host' & runData & recordInJson & Hh & Hu & Hm & _ & ->);
    [|done].
  unfold hostData in Hh. destruct (NewHostByHostname w) as [host|] eqn:Hhost; [|done].
  simplify_eq.
  eexists host, runData, _. split_and!; [done|done| | | | |].
  - by apply stored_after_put.
  - apply run_record_Data.
  - apply run_record_Host.
  - apply run_record_UnixNano.
  - apply run_record_dom.
Qed.

Lemma X5_record_content_witness :
  ∃ host runData record,
    NewHostByHostname Demo.world_echo = Ok host ∧
    json_Unmarshal_map Demo.world_echo "{}" = (runData, None) ∧
    stored_record Demo.world_echo
      (Run Demo.world_echo Demo.agent0 Demo.reader_echo).2
      (pathWithPrefix Demo.reader_echo) record ∧
    record !! "Data" = Some (AMap runData) ∧
    record !! "Host" = Some (AHost (mkHost (HostName host) (Tags Demo.agent0))) ∧
    record !! "UnixNano" = Some (AInt64 (time_Now_UnixNano Demo.world_echo)) ∧
    dom record = record_keys Demo.reader_echo.
Proof.
  apply (X5_record_content Demo.world_echo Demo.agent0 Demo.reader_echo "{}").
  - discriminate.
  - vm_compute. reflexivity.
Defined.

(** X6. Only the latest run of a path is retained: after two successful
    runs of one config, the store holds the record of the second under the
    config's key, has the keys it had after the first, and every other key
    is as it was before both. *)
Theorem X6_latest_run_retained (w1 w2 : World) (a a1 a2 : Agent) (config : Config)
    (out1 out2 : bytes) :
  Path config ≠ "" →
  Run w1 a config = ((out1, None), a1) →
  Run w2 a1 config = ((out2, None), a2) →
  (∃ host runData,
     json_Unmarshal_map w2 out2 = (runData, None) ∧
     stored_record w2 a2 (pathWithPrefix config) (run_record w2 config host runData)) ∧
  dom (Db a2) = dom (Db a1) ∧
  (∀ key, key ≠ pathWithPrefix config → Db a2 !! key = Db a !! key).
Proof.
  intros Hp [(_ & _ & [? [=]])|(_ & Hs1)]%Run_inv [(_ & _ & [? [=]])|(_ & Hs2)]%Run_inv.
  apply saveRun_ok_inv in Hs1 as (? & ? & rec1 & _ & _ & _ & _ & ->); [|done].
  apply saveRun_ok_inv in Hs2 as (host & runData & rec2 & _ & Hu & Hm & _ & ->); [|done].
  simpl. split_and!.
  - exists host, runData. split; [done|].
    exists rec2. unfold GetRunByPath. simpl. by rewrite lookup_insert_eq.
  - rewrite !dom_insert_L. by rewrite (assoc_L (∪)), (idemp_L (∪)).
  - intros key Hkey. by rewrite !lookup_insert_ne.
Qed.

Lemma X6_latest_run_retained_witness :
  let a1 := (Run Demo.world_echo Demo.agent_cpu Demo.reader_echo).2 in
  let a2 := (Run Samples.world_echo_later a1 Demo.reader_echo).2 in
  (∃ host runData,
     json_Unmarshal_map Samples.world_echo_later "{}" = (runData, None) ∧
     stored_record Samples.world_echo_later a2 (pathWithPrefix Demo.reader_echo)
       (run_record Samples.world_echo_later Demo.reader_echo host runData)) ∧
  dom (Db a2) = dom (Db a1) ∧
  (∀ key, key ≠ pathWithPrefix Demo.reader_echo →
     Db a2 !! key = Db Demo.agent_cpu !! key).
Proof.
  apply (X6_latest_run_retained Demo.world_echo Samples.world_echo_later
           Demo.agent_cpu _ _ Demo.reader_echo "{}" "{}").
  - discriminate.
  - vm_compute. reflexivity.
  - vm_compute. reflexivity.
Defined.

(** X7. A run of one reader or writer never changes what [GetRun] returns
    for another: for two configs of the prefixed kinds that differ in kind
    or in path, [GetRun] of the second is the same before and after any run
    of the first. *)
Theorem X7_runs_do_not_interfere (w : World) (a : Agent) (c1 c2 : Config) :
  reader_or_writer c1 → reader_or_writer c2 →
  Kind c1 ≠ Kind c2 ∨ Path c1 ≠ Path c2 →
  GetRun (Run w a c1).2 c2 = GetRun a c2.
Proof.
  intros H1 H2 Hdiff.
  assert (pathWithPrefix c2 ≠ pathWithPrefix c1) as Hkey.
  { intros [Hk Hp]%pathWithPrefix_inj; [|done..]. destruct Hdiff; congruence. }
  unfold GetRun, GetRunByPath.
  destruct (Run_agent w a c1) as [->|(rec & _ & ->)]; [done|]. simpl.
  by rewrite lookup_insert_ne.
Qed.

Lemma X7_runs_do_not_interfere_witness :
  GetRun (Run Demo.world_echo Demo.agent0 Demo.reader_echo).2 Samples.writer_x
  = GetRun Demo.agent0 Samples.writer_x.
Proof.
  apply (X7_runs_do_not_interfere Demo.world_echo Demo.agent0
           Demo.reader_echo Samples.writer_x).
  - left. reflexivity.
  - right. reflexivity.
  - left. discriminate.
Defined.

Lemma saveRun_failure (w : World) (a : Agent) (config : Config) (output : bytes)
    (e : error) :
  Path config ≠ "" →
  persistence_failure w a config output e →
  saveRun w a config output = (Some e, a).
Proof.
  intros Hp Hf. unfold saveRun. case_decide; [done|].
  destruct Hf as [e Hh|host runData partial e Hh Hu Hm|host runData rec e Hh Hu Hm Hput];
    rewrite Hh; [done|..]; rewrite Hu; unfold run_record in Hm; rewrite Hm; [done|].
  by rewrite Hput.
Qed.

(** X8. A failure of the persistence itself (host snapshot, serialization
    of the record, store transaction) is returned to the caller together
    with the output of the run, and nothing is written. *)
Theorem X8_persistence_failure (w : World) (a : Agent) (config : Config)
    (output : bytes) (e : error) :
  Run_dispatch w a config = (output, None) →
  Path config ≠ "" →
  persistence_failure w a config output e →
  Run w a config = ((output, Some e), a).
Proof.
  intros Hd Hp Hf.
  by rewrite (Run_dispatch_ok _ _ _ _ Hd), (saveRun_failure _ _ _ _ _ Hp Hf).
Qed.

Lemma X8_persistence_failure_witness :
  Run Samples.world_read_only Demo.agent_cpu Demo.reader_echo
  = (("{}", Some "database is in read-only mode"), Demo.agent_cpu).
Proof.
  apply (X8_persistence_failure Samples.world_read_only Demo.agent_cpu Demo.reader_echo).
  - reflexivity.
  - discriminate.
  - eapply (store_failure _ _ _ _ (mkHost "localhost" []) ∅).
    + reflexivity.
    + reflexivity.
    + reflexivity.
    + reflexivity.
Defined.

(** ** Upstream reader data, for any list of reader paths *)

Lemma runCommand_readersData_fold (w : World) (a : Agent) (paths : list string)
    (acc : gmap string any) (p : string) :
  foldl
    (λ readersData readerPath,
       let '(readerJsonBytes, err) :=
         GetRunByPath a (pathWithReaderPrefix (InString readerPath)) in
       match err with
       | None =>
           let '(data, err) := json_Unmarshal w readerJsonBytes in
           match err with
           | None => <[readerPath := data]> readersData
           | Some _ => readersData
           end
       | Some _ => readersData
       end) acc paths !! p
  = if decide (p ∈ paths) then
      match json_Unmarshal w (reader_bytes a p) with
      | (data, None) => Some data
      | (_, Some _) => acc !! p
      end
    else acc !! p.
Proof.
  revert acc. induction paths as [|x paths IH]; intros acc; [done|].
  cbn [foldl]. rewrite IH. clear IH.
  unfold reader_bytes, GetRunByPath. cbn [fst].
  destruct (decide (p = x)) as [->|Hne].
  - rewrite (decide_True (P := x ∈ x :: paths)) by left.
    destruct (json_Unmarshal w _) as [data [e|]]; case_decide; try done.
    by rewrite lookup_insert_eq.
  - assert (p ∈ x :: paths ↔ p ∈ paths) as Hin by (rewrite elem_of_cons; naive_solver).
    destruct (json_Unmarshal w (default "" (Db a !! pathWithReaderPrefix (InString x))))
      as [datax [e|]];
      repeat case_decide; try tauto; rewrite ?lookup_insert_ne by done; done.
Qed.

(** X9. On the shell-out path, for any list of reader paths: the mapping
    fed to the command binds a path to a value exactly when the path is
    listed and the bytes stored under its reader key decode to that value; a
    path with no record (empty bytes) or with bytes that do not decode is
    left out. *)
Theorem X9_shell_out_readersData (w : World) (a : Agent) (config : Config)
    (p : string) (data : any) :
  runCommand_readersData w a config !! p = Some data
  ↔ p ∈ ReaderPaths config ∧ json_Unmarshal w (reader_bytes a p) = (data, None).
Proof.
  unfold runCommand_readersData. rewrite runCommand_readersData_fold.
  rewrite lookup_empty.
  destruct (json_Unmarshal w (reader_bytes a p)) as [data' [e|]];
    case_decide; naive_solver.
Qed.

Lemma initGoStructWriter_readersData_fold (a : Agent) (paths : list string)
    (acc : gmap string bytes) (p : string) :
  foldl
    (λ readersData readerPath,
       let '(readerJsonBytes, err) :=
         GetRunByPath a (pathWithReaderPrefix (InString readerPath)) in
       match err with
       | None => <[readerPath := readerJsonBytes]> readersData
       | Some _ => readersData
       end) acc paths !! p
  = if decide (p ∈ paths) then Some (reader_bytes a p) else acc !! p.
Proof.
  revert acc. induction paths as [|x paths IH]; intros acc; [done|].
  cbn [foldl]. rewrite IH. clear IH.
  unfold reader_bytes, GetRunByPath. cbn [fst].
  destruct (decide (p = x)) as [->|Hne].
  - rewrite (decide_True (P := x ∈ x :: paths)) by left.
    case_decide; [done|]. by rewrite lookup_insert_eq.
  - assert (p ∈ x :: paths ↔ p ∈ paths) as Hin by (rewrite elem_of_cons; naive_solver).
    repeat case_decide; try tauto. by rewrite lookup_insert_ne.
Qed.

(** X10. On the in-process path, for any list of reader paths: the raw
    mapping handed to the writer binds every listed path, and only those,
    to the bytes [GetRunByPath] returns under its reader key, which are
    empty for a path with no record. *)
Theorem X10_in_process_readersData (a : Agent) (config : Config) :
  (∀ p, initGoStructWriter_readersData a config !! p
        = if decide (p ∈ ReaderPaths config) then Some (reader_bytes a p) else None) ∧
  dom (initGoStructWriter_readersData a config) = list_to_set (ReaderPaths config) ∧
  (∀ p, p ∈ ReaderPaths config →
        Db a !! pathWithReaderPrefix (InString p) = None →
        initGoStructWriter_readersData a config !! p = Some "").
Proof.
  assert (∀ p, initGoStructWriter_readersData a config !! p
               = if decide (p ∈ ReaderPaths config) then Some (reader_bytes a p) else None)
    as Hlookup.
  { intros p. unfold initGoStructWriter_readersData.
    by rewrite initGoStructWriter_readersData_fold, lookup_empty. }
  split_and!; [done| |].
  - apply set_eq. intros p.
    rewrite elem_of_dom, Hlookup, elem_of_list_to_set.
    case_decide; [by split; [|eexists] | split; [by intros [? ?]|done]].
  - intros p Hin Hnone. rewrite Hlookup, decide_True by done.
    unfold reader_bytes, GetRunByPath. by rewrite Hnone.
Qed.

(** X11. What a reader persists is what a writer consumes: after a
    successful run of a reader whose path is non-empty and does not start
    with "/r/", a writer that lists that path is given the stored bytes of
    the whole record on the in-process path, and their decoding on the
    shell-out path. *)
Theorem X11_reader_feeds_writer (w : World) (a a' : Agent) (reader : Config)
    (out : bytes) :
  Kind reader = "reader" →
  Path reader ≠ "" →
  String.prefix "/r/" (Path reader) = false →
  Run w a reader = ((out, None), a') →
  ∃ host runData recordInJson,
    json_Marshal w (AMap (run_record w reader host runData)) = (recordInJson, None) ∧
    ∀ writer : Config,
      Path reader ∈ ReaderPaths writer →
      initGoStructWriter_readersData a' writer !! Path reader = Some recordInJson ∧
      ∀ (w' : World) (data : any),
        json_Unmarshal w' recordInJson = (data, None) →
        runCommand_readersData w' a' writer !! Path reader = Some data.
Proof.
  intros Hk Hp Hpre [(_ & _ & [? [=]])|(_ & Hs)]%Run_inv.
  apply saveRun_ok_inv in Hs as (host & runData & recordInJson & _ & _ & Hm & _ & ->);
    [|done].
  exists host, runData, recordInJson. split; [done|].
  intros writer Hin.
  assert (reader_bytes
            (mkAgent (<[pathWithPrefix reader := recordInJson]> (Db a)) (Tags a))
            (Path reader) = recordInJson) as Hbytes.
  { unfold reader_bytes, GetRunByPath. cbn [fst Db].
    rewrite (pathWithPrefix_reader _ Hk).
    unfold pathWithReaderPrefix. rewrite (unprefixed_prepended "r" _ Hpre).
    by rewrite lookup_insert_eq. }
  split.
  - unfold initGoStructWriter_readersData.
    rewrite initGoStructWriter_readersData_fold, decide_True by done.
    by rewrite Hbytes.
  - intros w' data Hu. unfold runCommand_readersData.
    rewrite runCommand_readersData_fold, decide_True by done.
    by rewrite Hbytes, Hu.
Qed.

Lemma X11_reader_feeds_writer_witness :
  ∃ host runData recordInJson,
    json_Marshal Demo.world_echo (AMap (run_record Demo.world_echo Demo.reader_echo host runData))
      = (recordInJson, None) ∧
    ∀ writer : Config,
      Path Demo.reader_echo ∈ ReaderPaths writer →
      initGoStructWriter_readersData
        (Run Demo.world_echo Demo.agent0 Demo.reader_echo).2 writer
        !! Path Demo.reader_echo = Some recordInJson ∧
      ∀ (w' : World) (data : any),
        json_Unmarshal w' recordInJson = (data, None) →
        runCommand_readersData w'
          (Run Demo.world_echo Demo.agent0 Demo.reader_echo).2 writer
          !! Path Demo.reader_echo = Some data.
Proof.
  apply (X11_reader_feeds_writer Demo.world_echo Demo.agent0 _ Demo.reader_echo "{}").
  - reflexivity.
  - discriminate.
  - reflexivity.
  - vm_compute. reflexivity.
Defined.

(** The writer "cat" after the reader "/x" has run: its mapping binds "/x"
    to the whole record of the reader. *)
Example writer_cat_sees_record :
  runCommand_readersData Samples.world_cat
    (Run Demo.world_echo Demo.agent0 Demo.reader_echo).2 Samples.writer_cat
  = {["/x" := AMap (run_record Demo.world_echo Demo.reader_echo (mkHost "localhost" []) ∅)]}.
Proof. by vm_compute. Qed.

(** ** In-process writers and the precedence of [Command] *)

(** X12. An in-process writer whose [Run] fails is treated as a failing
    reader is: once the writer is constructed and the post-processing step
    has passed, the output of the run is the serialization of the one-field
    map with "Error" bound to the message and no error comes from the
    executor; the error [Run] returns is the one of persisting that output;
    with an empty [Path] there is none and the agent is unchanged; with a
    non-empty [Path], once the host snapshot, the codec and the store
    transaction succeed, the store holds under the writer's key the record
    whose [Data] is that one-field map. *)
Theorem X12_failing_writer (w : World) (a : Agent) (config : Config)
    (writer writer' : writers.IWriter) (after : readers.IReader)
    (msg : error) (payload : bytes) :
  in_process_writer config →
  initGoStructWriter w a config = Ok writer →
  processJson w config writer = (None, writer') →
  readers.Run (writers.as_reader writer') = (after, Some msg) →
  json_Marshal w (AMap {["Error" := AStr msg]}) = (payload, None) →
  Run_dispatch w a config = (payload, None) ∧
  Run w a config
    = ((payload, (saveRun w a config payload).1), (saveRun w a config payload).2) ∧
  (Path config = "" → Run w a config = ((payload, None), a)) ∧
  (∀ host recordInJson,
     Path config ≠ "" →
     hostData w a = Ok host →
     json_Unmarshal_map w payload = ({["Error" := AStr msg]}, None) →
     json_Marshal w (AMap (run_record w config host {["Error" := AStr msg]}))
       = (recordInJson, None) →
     Db_Update_Put_err w (pathWithPrefix config) recordInJson = None →
     (Run w a config).1 = (payload, None) ∧
     stored_record w (Run w a config).2 (pathWithPrefix config)
       (run_record w config host {["Error" := AStr msg]}) ∧
     run_record w config host {["Error" := AStr msg]} !! "Data"
       = Some (AMap {["Error" := AStr msg]}) ∧
     pathWithPrefix config = "/w" +:+ Path config).
Proof.
  intros Hd Hi Hp Hr Hm.
  assert (Run_dispatch w a config = (payload, None)) as Hdispatch.
  { rewrite (dispatch_in_process_writer _ _ _ Hd).
    unfold runGoStructWriter. rewrite Hi, Hp.
    by rewrite (runGoStruct_failing _ _ _ _ Hr), error_payload_value. }
  pose proof (Run_dispatch_ok _ _ _ _ Hdispatch) as Hrun.
  split_and!; [done|done| |].
  - intros Hpath. by rewrite Hrun, (saveRun_no_path _ _ _ _ Hpath).
  - intros host recordInJson Hpath Hh Hu Hrec Hput.
    rewrite Hrun, (saveRun_ok _ _ _ _ _ _ _ Hpath Hh Hu Hrec Hput). simpl.
    split_and!; [done|by apply stored_after_put|apply run_record_Data|].
    apply pathWithPrefix_writer. by destruct Hd as (_ & _ & ?).
Qed.

Lemma X12_failing_writer_witness :
  (Run Samples.world_broken Demo.agent0 Samples.writer_broken).1
    = (Demo.marshal (AMap {["Error" := AStr "no route to host"]}), None) ∧
  stored_record Samples.world_broken
    (Run Samples.world_broken Demo.agent0 Samples.writer_broken).2 "/w/alert"
    (run_record Samples.world_broken Samples.writer_broken (mkHost "localhost" [])
       {["Error" := AStr "no route to host"]}) ∧
  run_record Samples.world_broken Samples.writer_broken (mkHost "localhost" [])
    {["Error" := AStr "no route to host"]} !! "Data"
  = Some (AMap {["Error" := AStr "no route to host"]}) ∧
  "/w/alert" = "/w" +:+ Path Samples.writer_broken.
Proof.
  destruct (X12_failing_writer Samples.world_broken Demo.agent0 Samples.writer_broken
              (writers.SetReadersDataInBytes {["/x" := ""]} Samples.broken_writer)
              (writers.SetReadersDataInBytes {["/x" := ""]} Samples.broken_writer)
              (writers.as_reader
                 (writers.SetReadersDataInBytes {["/x" := ""]} Samples.broken_writer))
              "no route to host"
              (Demo.marshal (AMap {["Error" := AStr "no route to host"]})))
    as (_ & _ & _ & Hstored).
  - split_and!; [reflexivity | discriminate | reflexivity].
  - reflexivity.
  - reflexivity.
  - reflexivity.
  - reflexivity.
  - apply (Hstored (mkHost "localhost" [])
             (Demo.marshal
                (AMap (run_record Samples.world_broken Samples.writer_broken
                         (mkHost "localhost" [])
                         {["Error" := AStr "no route to host"]})))).
    + discriminate.
    + reflexivity.
    + vm_compute. reflexivity.
    + reflexivity.
    + reflexivity.
Defined.

(** The record of the failing writer is stored under its "/w" key. *)
Example failing_writer_persisted :
  dom (Db (Run Samples.world_broken Demo.agent0 Samples.writer_broken).2)
  = ({["/w/alert"]} : gset string).
Proof. by vm_compute. Qed.

(** X13. [Command] takes precedence: a config that sets [Command] never
    constructs a task, so its run is the same whatever the registries hold,
    also when its [GoStruct] is registered nowhere. *)
Theorem X13_command_precedence (w : World) (a : Agent) (config : Config)
    (rs : gmap string (unit → readers.IReader))
    (ws : gmap string (unit → writers.IWriter)) :
  shell_out config →
  Run (with_registries rs ws w) a config = Run w a config ∧
  Run_dispatch w a config = runCommand w a config.
Proof.
  intros Hd. split; [|by apply dispatch_shell_out].
  unfold Run. rewrite !(dispatch_shell_out _ _ _ Hd). reflexivity.
Qed.

Lemma X13_command_precedence_witness :
  Run (with_registries ∅ ∅ Demo.world_boom) Demo.agent0 Samples.reader_both
    = Run Demo.world_boom Demo.agent0 Samples.reader_both ∧
  Run_dispatch Demo.world_boom Demo.agent0 Samples.reader_both
    = runCommand Demo.world_boom Demo.agent0 Samples.reader_both.
Proof.
  apply (X13_command_precedence Demo.world_boom Demo.agent0 Samples.reader_both ∅ ∅).
  discriminate.
Defined.

(** ** Tags *)

Import AgentSetup.

Lemma strings_Split_cons (s : string) (sep : ascii) :
  ∃ piece pieces, strings_Split s sep = piece :: pieces.
Proof.
  induction s as [|c s (piece & pieces & IH)]; simpl; [by eexists _, _|].
  case_decide; [by eexists _, _|]. rewrite IH. by eexists _, _.
Qed.

Lemma strings_Split_length (s : string) (sep : ascii) :
  length (strings_Split s sep) = S (strings_Count s sep).
Proof.
  induction s as [|c s IH]; simpl; [done|].
  case_decide; simpl; [by rewrite IH|].
  destruct (strings_Split s sep); simpl in *; lia.
Qed.

Lemma concat_cons_cons (sep x y : string) (l : list string) :
  String.concat sep (x :: y :: l) = x +:+ sep +:+ String.concat sep (y :: l).
Proof. reflexivity. Qed.

Lemma strings_Split_join (s : string) (sep : ascii) :
  String.concat (String sep "") (strings_Split s sep) = s.
Proof.
  induction s as [|c s IH]; simpl; [done|].
  destruct (strings_Split_cons s sep) as (piece & pieces & Hs).
  rewrite Hs in *. case_decide as Hc.
  - rewrite concat_cons_cons, IH. by rewrite Hc.
  - destruct pieces as [|piece' pieces].
    + simpl in *. by rewrite IH.
    + rewrite concat_cons_cons in *.
      change (String c piece +:+ ?x) with (String c (piece +:+ x)). by rewrite IH.
Qed.

(** X14. [setTags], for a non-empty RESOURCED_TAGS: there is one tag per
    comma-separated field, empty fields included, that is one more than
    there are commas; each tag is the trimmed field; and when trimming
    leaves the fields as they are, joining the tags with commas gives the
    variable back. (An empty variable gives no tag.) *)
Theorem X14_setTags (TrimSpace : string → string) (tags : string) :
  tags ≠ "" →
  length (setTags TrimSpace tags) = S (strings_Count tags ",") ∧
  setTags TrimSpace tags = TrimSpace <$> strings_Split tags "," ∧
  ((∀ field, field ∈ strings_Split tags "," → TrimSpace field = field) →
   String.concat "," (setTags TrimSpace tags) = tags).
Proof.
  intros Hne. unfold setTags. rewrite decide_True by done. cbv zeta.
  split_and!.
  - by rewrite length_fmap, strings_Split_length.
  - done.
  - intros Hid.
    transitivity (String.concat "," (strings_Split tags ","));
      [|apply strings_Split_join].
    f_equal. rewrite <- (list_fmap_id (strings_Split tags ",")) at 2.
    apply list_fmap_ext. intros i field Hi. apply Hid.
    by apply list_elem_of_lookup_2 in Hi.
Qed.

Lemma X14_setTags_witness :
  length (setTags (λ s, s) "web,,db") = S (strings_Count "web,,db" ",") ∧
  setTags (λ s, s) "web,,db" = (λ s, s) <$> strings_Split "web,,db" "," ∧
  ((∀ field, field ∈ strings_Split "web,,db" "," → (λ s : string, s) field = field) →
   String.concat "," (setTags (λ s, s) "web,,db") = "web,,db").
Proof. apply (X14_setTags (λ s, s) "web,,db"). discriminate. Defined.

(** No variable, no tag. *)
Example setTags_empty (TrimSpace : string → string) : setTags TrimSpace "" = [].
Proof. reflexivity. Qed.

(** Three fields, the middle one empty. *)
Example setTags_three :
  setTags (λ s, s) "web,,db" = ["web"; ""; "db"].
Proof. reflexivity. Qed.

(** ** The dispatch loop, in every execution *)

(** A process of one goroutine steps either by a step of that goroutine or
    by the default branch of its loop: a rendezvous needs two. *)
Lemma single_step (g : goroutine) (n : nat) (ev : event) (s' : system) :
  step (mkSystem [g] n) ev s' →
  (∃ g', local_step n g ev g' ∧ s' = mkSystem [g'] (chans_after ev n)) ∨
  (∃ config quit caller,
     ctl g = InRunForever config quit caller ∧ ev = EvRun config ∧
     s' = mkSystem [g] n).
Proof.
  inversion 1 as [s0 i g0 ev0 g' Hi Hlocal|s0 i g0 config quit caller Hi Hctl
                 |s0 i j gi gj ? ? ? ? ? Hne Hi _ Hj _]; subst; simpl in *.
  - apply list_lookup_singleton_Some in Hi as [-> <-]. left. by exists g'.
  - apply list_lookup_singleton_Some in Hi as [-> <-]. right. by eexists _, _, _.
  - apply list_lookup_singleton_Some in Hi as [-> _].
    apply list_lookup_singleton_Some in Hj as [-> _]. done.
Qed.

Lemma in_first_loop_step (config : Config) (s : system) (ev : event) (s' : system) :
  in_first_loop config s → step s ev s' → ev = EvRun config ∧ s' = s.
Proof.
  intros (caller & table & ->) [(g' & Hlocal & _)|(? & ? & ? & Hctl & -> & ->)]%single_step.
  - inversion Hlocal; simpl in *; congruence.
  - simpl in Hctl. by simplify_eq.
Qed.

Lemma in_first_loop_exec (config : Config) (s : system) (tr : list event) (s' : system) :
  in_first_loop config s → exec s tr s' →
  Forall (λ ev, ev = EvRun config) tr ∧ s' = s.
Proof.
  intros Hloop Hexec. induction Hexec as [|s ev s' tr s'' Hstep _ IH]; [done|].
  destruct (in_first_loop_step _ _ _ _ Hloop Hstep) as [-> ->].
  destruct (IH Hloop) as [? ->]. split; [by constructor|done].
Qed.

(** Before any loop is entered, a step either stays before the loops, with
    the same entries pending unless a configuration set is received, or
    enters the loop of the first pending entry. *)
Lemma before_loop_step (c : control) (ev : event) (s' : system) :
  before_loop (mkSystem [mkGoroutine c ∅] 0) →
  step (mkSystem [mkGoroutine c ∅] 0) ev s' →
  (∃ c', s' = mkSystem [mkGoroutine c' ∅] 0 ∧
         before_loop s' ∧
         (ev = EvNext ∧ pending_entries c' = pending_entries c ∨
          ∃ configStorage, ev = EvConfig configStorage ∧ c = AtSelect ∧
            pending_entries c' = (Readers configStorage ++ Writers configStorage)%list)) ∨
  (∃ config rest, pending_entries c = config :: rest ∧
                  ev = EvLoop config 0 ∧ in_first_loop config s').
Proof.
  intros (c0 & [= <-] & Hc) [(g' & Hlocal & ->)|(? & ? & ? & Hctl & _)]%single_step;
    [|simpl in Hctl; by subst].
  inversion Hlocal as [? ? ? ? Hsize|? cs Hctl|? cs Hctl|? config rest cs Hctl
                      |? cs Hctl|? config rest Hctl|? Hctl]; subst; simpl in *; subst.
  - rewrite map_size_empty in Hsize. lia.
  - left. eexists. split_and!; [done|by eexists|]. right. by exists cs.
  - left. eexists. split_and!; [done|by eexists|]. by left.
  - right. exists config, (rest ++ Writers cs)%list. split_and!; [done..|]. by eexists _, _.
  - left. eexists. split_and!; [done|by eexists|]. by left.
  - right. exists config, rest. split_and!; [done..|]. by eexists _, _.
  - left. eexists. split_and!; [done|by eexists|].
    (* the writers are exhausted: nothing was pending *)
    by left.
Qed.

(** Every execution that starts before the loops either stays there, or is
    a quiet prefix, the entry of one loop, and runs of that loop's config. *)
Lemma exec_shape (s : system) (tr : list event) (s' : system) :
  before_loop s → exec s tr s' →
  Forall quiet tr ∧ before_loop s' ∨
  ∃ tr1 config runs,
    tr = (tr1 ++ EvLoop config 0 :: runs)%list ∧ Forall quiet tr1 ∧
    Forall (λ ev, ev = EvRun config) runs ∧ in_first_loop config s'.
Proof.
  intros Hbefore Hexec. induction Hexec as [|s ev s1 tr s' Hstep Hexec IH]; [by left|].
  pose proof Hbefore as (c & -> & Hc).
  destruct (before_loop_step _ _ _ Hbefore Hstep)
    as [(c' & -> & Hb' & Hev)|(config & rest & _ & -> & Hloop)].
  - assert (quiet ev) as Hq by (destruct Hev as [[-> _]|(? & -> & _)]; done).
    destruct (IH Hb') as [[Htr Hs']|(tr1 & config & runs & -> & Htr1 & Hruns & Hloop)].
    + left. split; [by constructor|done].
    + right. exists (ev :: tr1), config, runs. split_and!; [done|by constructor|done..].
  - right. destruct (in_first_loop_exec _ _ _ _ Hloop Hexec) as [Hruns ->].
    by exists [], config, tr.
Qed.

Lemma initial_before_loop : before_loop initial.
Proof. by exists AtSelect. Qed.

Lemma quiet_not_loop (tr : list event) (ev : event) :
  Forall quiet tr → ev ∈ tr → quiet ev.
Proof. rewrite Forall_forall. auto. Qed.

(** X15. In every execution of the dispatcher, whatever configuration sets
    arrive: there is never more than the one goroutine; at most one channel
    is made; no quit signal is ever delivered, so the quit branch of
    [RunForever] is never taken; at most one loop is entered, on channel 0;
    and every run is a run of that loop's config. *)
Theorem X15_dispatch_invariants (tr : list event) (s : system) :
  exec initial tr s →
  length (pool s) = 1 ∧
  (chans s ≤ 1)%nat ∧
  (∀ quit, EvQuit quit ∉ tr) ∧
  (∀ config quit, EvLoop config quit ∈ tr →
     quit = 0 ∧ ∀ config', EvRun config' ∈ tr → config' = config) ∧
  (∀ config, EvRun config ∈ tr → EvLoop config 0 ∈ tr).
Proof.
  intros [[Htr (c & -> & _)]|(tr1 & config & runs & -> & Htr1 & Hruns & caller & table & ->)]
    %(exec_shape _ _ _ initial_before_loop).
  - split_and!; [done|simpl; lia|..].
    + intros quit Hin. by apply (quiet_not_loop _ _ Htr) in Hin.
    + intros config quit Hin. by apply (quiet_not_loop _ _ Htr) in Hin.
    + intros config Hin. by apply (quiet_not_loop _ _ Htr) in Hin.
  - rewrite Forall_forall in Hruns.
    assert (∀ ev, ev ∈ (tr1 ++ EvLoop config 0 :: runs)%list →
                  quiet ev ∨ ev = EvLoop config 0 ∨ ev = EvRun config) as Hev.
    { intros ev [Hin|[->|Hin]%elem_of_cons]%elem_of_app.
      - left. by apply (quiet_not_loop _ _ Htr1).
      - by right; left.
      - right; right. by apply Hruns. }
    split_and!; [done|simpl; lia|..].
    + intros quit [?|[[=]|[=]]]%Hev. done.
    + intros config' quit [?|[[= -> ->]|[=]]]%Hev; [done|].
      split; [done|]. by intros config' [?|[[=]|[= ->]]]%Hev.
    + intros config' [?|[[=]|[= ->]]]%Hev; [done|].
      apply elem_of_app. right. by left.
Qed.

Lemma X15_dispatch_invariants_witness :
  let tr := [EvConfig Demo.two_readers; EvLoop Demo.reader_cpu 0;
             EvRun Demo.reader_cpu; EvRun Demo.reader_cpu] in
  let s := mkSystem
             [mkGoroutine
                (InRunForever Demo.reader_cpu 0 (RangeReaders [Demo.reader_mem] Demo.two_readers))
                {["/cpu" := 0]}] 1 in
  length (pool s) = 1 ∧
  (chans s ≤ 1)%nat ∧
  (∀ quit, EvQuit quit ∉ tr) ∧
  (∀ config quit, EvLoop config quit ∈ tr →
     quit = 0 ∧ ∀ config', EvRun config' ∈ tr → config' = config) ∧
  (∀ config, EvRun config ∈ tr → EvLoop config 0 ∈ tr).
Proof. apply (X15_dispatch_invariants _ _ two_readers_exec). Defined.

Lemma pending_head_exec (s : system) (config : Config) (rest : list Config)
    (tr : list event) (s' : system) :
  (∃ c, s = mkSystem [mkGoroutine c ∅] 0 ∧ before_loop s ∧
        pending_entries c = config :: rest) →
  exec s tr s' →
  Forall (λ ev, ev = EvNext ∨ ev = EvLoop config 0 ∨ ev = EvRun config) tr.
Proof.
  intros Hs Hexec. induction Hexec as [|s ev s1 tr s' Hstep Hexec IH]; [done|].
  destruct Hs as (c & -> & Hbefore & Hpending).
  destruct (before_loop_step _ _ _ Hbefore Hstep)
    as [(c' & -> & Hb' & [[-> Hp']|(cs & -> & -> & _)])|(config' & rest' & Hp' & -> & Hloop)].
  - constructor; [by left|]. apply IH. exists c'. by rewrite Hp'.
  - done.
  - rewrite Hpending in Hp'. simplify_eq. constructor; [by right; left|].
    destruct (in_first_loop_exec _ _ _ _ Hloop Hexec) as [Hruns _].
    eapply Forall_impl; [exact Hruns|]. intros ev ->. by right; right.
Qed.

(** X16. Readers first, then writers, and only the first: after the first
    configuration set, in every execution, the only loop entered and the
    only config run is the first reader, or the first writer when the set
    has no reader; no later configuration set is received and no quit
    signal is delivered. *)
Theorem X16_first_entry_only (configStorage : ConfigStorage) (config : Config)
    (rest : list Config) (tr : list event) (s : system) :
  (Readers configStorage ++ Writers configStorage)%list = config :: rest →
  exec initial (EvConfig configStorage :: tr) s →
  (∀ config' quit, EvLoop config' quit ∈ tr → config' = config ∧ quit = 0) ∧
  (∀ config', EvRun config' ∈ tr → config' = config) ∧
  (∀ configStorage', EvConfig configStorage' ∉ tr) ∧
  (∀ quit, EvQuit quit ∉ tr).
Proof.
  intros Hentries Hexec.
  inversion Hexec as [|? ? s1 ? ? Hstep Hexec1]; subst.
  destruct (before_loop_step _ _ _ initial_before_loop Hstep)
    as [(c' & -> & Hb' & [[[=] _]|(cs & [= <-] & _ & Hp')])|(? & ? & _ & [=] & _)].
  assert (Forall (λ ev, ev = EvNext ∨ ev = EvLoop config 0 ∨ ev = EvRun config) tr)
    as Htr.
  { eapply pending_head_exec; [|exact Hexec1]. exists c'. by rewrite Hp'. }
  rewrite Forall_forall in Htr.
  split_and!.
  - by intros config' quit [[=]|[[= -> ->]|[=]]]%Htr.
  - by intros config' [[=]|[[=]|[= ->]]]%Htr.
  - by intros configStorage' [[=]|[[=]|[=]]]%Htr.
  - by intros quit [[=]|[[=]|[=]]]%Htr.
Qed.

(** An execution on a configuration set with no reader and two writers: the
    loop of the first writer is entered and runs once. *)
Lemma two_writers_exec :
  exec initial
    [EvConfig Samples.two_writers; EvNext; EvLoop Samples.writer_cat 0;
     EvRun Samples.writer_cat]
    (mkSystem
       [mkGoroutine (InRunForever Samples.writer_cat 0 (RangeWriters [Samples.writer_broken]))
          {["/alert" := 0]}]
       1).
Proof.
  eapply exec_cons.
  { apply (step_local initial 0 (mkGoroutine AtSelect ∅) (EvConfig Samples.two_writers));
      [reflexivity|]. by apply step_receive. }
  eapply exec_cons.
  { eapply (step_local _ 0 _ EvNext); [reflexivity|].
    by eapply (step_readers_done 0 _ Samples.two_writers). }
  eapply exec_cons.
  { eapply (step_local _ 0 _ (EvLoop Samples.writer_cat 0)); [reflexivity|].
    by eapply (step_writer 0 _ Samples.writer_cat). }
  eapply exec_cons.
  { eapply (step_default _ 0); [reflexivity|reflexivity|].
    intros j g' [_ <-]%list_lookup_singleton_Some. by intros (? & ? & ?). }
  apply exec_nil.
Defined.

Lemma X16_first_entry_only_witness :
  let tr := [EvNext; EvLoop Samples.writer_cat 0; EvRun Samples.writer_cat] in
  (∀ config' quit, EvLoop config' quit ∈ tr → config' = Samples.writer_cat ∧ quit = 0) ∧
  (∀ config', EvRun config' ∈ tr → config' = Samples.writer_cat) ∧
  (∀ configStorage', EvConfig configStorage' ∉ tr) ∧
  (∀ quit, EvQuit quit ∉ tr).
Proof.
  apply (X16_first_entry_only Samples.two_writers Samples.writer_cat
           [Samples.writer_broken] _ _ eq_refl two_writers_exec).
Defined.

(** X17. An empty configuration set is absorbed: the dispatcher passes the
    two empty ranges and is back at its select in the initial state, ready
    for the next set; every execution that receives it does just that. *)
Theorem X17_empty_set_absorbed (configStorage : ConfigStorage) :
  Readers configStorage = [] →
  Writers configStorage = [] →
  exec initial [EvConfig configStorage; EvNext; EvNext] initial ∧
  ∀ tr s,
    exec initial (EvConfig configStorage :: tr) s →
    tr = [] ∨ tr = [EvNext] ∨ ∃ tr', tr = EvNext :: EvNext :: tr' ∧ exec initial tr' s.
Proof.
  intros Hr Hw. split.
  - eapply exec_cons.
    { apply (step_local initial 0 (mkGoroutine AtSelect ∅) (EvConfig configStorage));
        [reflexivity|]. by apply step_receive. }
    eapply exec_cons.
    { eapply (step_local _ 0 _ EvNext); [reflexivity|].
      eapply (step_readers_done 0 _ configStorage). simpl. by rewrite Hr. }
    eapply exec_cons.
    { eapply (step_local _ 0 _ EvNext); [reflexivity|].
      eapply (step_writers_done 0). simpl. by rewrite Hw. }
    apply exec_nil.
  - intros tr s Hexec.
    inversion Hexec as [|? ? s1 ? ? Hstep1 Hexec1]; subst.
    apply single_step in Hstep1 as [(g1 & Hl1 & ->)|(? & ? & ? & Hctl & _)]; [|done].
    inversion Hl1 as [? ? ? ? Hsize|? cs Hctl| | | | |]; subst; simpl in *.
    { rewrite map_size_empty in Hsize. lia. }
    rewrite Hr in Hexec1.
    inversion Hexec1 as [|? ? s2 tr2 ? Hstep2 Hexec2]; subst; [by left|].
    apply single_step in Hstep2 as [(g2 & Hl2 & ->)|(? & ? & ? & Hctl2 & _)]; [|done].
    inversion Hl2; subst; simpl in *; simplify_eq.
    rewrite Hw in Hexec2.
    inversion Hexec2 as [|? ? s3 tr3 ? Hstep3 Hexec3]; subst; [by right; left|].
    apply single_step in Hstep3 as [(g3 & Hl3 & ->)|(? & ? & ? & Hctl3 & _)]; [|done].
    inversion Hl3; subst; simpl in *; simplify_eq.
    right; right. by exists tr3.
Qed.

Lemma X17_empty_set_absorbed_witness :
  exec initial [EvConfig Samples.no_tasks; EvNext; EvNext] initial ∧
  ∀ tr s,
    exec initial (EvConfig Samples.no_tasks :: tr) s →
    tr = [] ∨ tr = [EvNext] ∨ ∃ tr', tr = EvNext :: EvNext :: tr' ∧ exec initial tr' s.
Proof. apply (X17_empty_set_absorbed Samples.no_tasks); reflexivity. Defined.

(** * Package cpu *)

Lemma percpu_loop_spec (last cpuTimes : list cpu.CPUTimesStat) :
  cpu.percpu_loop last cpuTimes
  = if decide (length cpuTimes ≤ length last)%nat
    then cpu.Returned (zip_with cpu.calculate last cpuTimes)
    else cpu.Panicked.
Proof.
  revert last. induction cpuTimes as [|t cpuTimes IH]; intros last;
    cbn [cpu.percpu_loop].
  - case_decide; [by destruct last | simpl in *; lia].
  - destruct last as [|l last]; cbn [cpu.percpu_loop].
    + case_decide; [simpl in *; lia | done].
    + rewrite IH. repeat case_decide; try done; simpl in *; lia.
Qed.

Lemma percentages_percpu (cpuTimes : list cpu.CPUTimesStat) (g : cpu.state) :
  cpu.percentages true cpuTimes g
  = if decide (length cpuTimes ≤ length (cpu.lastPerCPUTimes g))%nat
    then cpu.Returned
           ((zip_with cpu.calculate (cpu.lastPerCPUTimes g) cpuTimes, None),
            cpu.set_last true cpuTimes g)
    else cpu.Panicked.
Proof.
  unfold cpu.percentages. simpl. rewrite percpu_loop_spec. by case_decide.
Qed.

Lemma percentages_total (cpuTimes : list cpu.CPUTimesStat) (g : cpu.state) :
  cpu.percentages false cpuTimes g
  = match cpu.lastCPUTimes g, cpuTimes with
    | l :: _, t :: rest =>
        cpu.Returned
          ((cpu.calculate l t :: replicate (length rest) 0%float, None),
           cpu.set_last false cpuTimes g)
    | _, _ => cpu.Panicked
    end.
Proof.
  unfold cpu.percentages. simpl.
  destruct (cpu.lastCPUTimes g) as [|l ?], cpuTimes as [|t rest]; done.
Qed.

(** X18. [CPUPercent] with a positive interval, both readings succeeding:
    the result compares the first reading with the second and does not
    depend on the package variables before the call. Per CPU, it has one
    entry per CPU of the second reading, and the call panics exactly when
    the second reading has more CPUs than the first. In total mode, only
    entry 0 is computed, the others stay 0, and the call panics exactly
    when one of the readings is empty. Afterwards the variable of the mode
    holds the second reading, the other one is untouched, and one sleep of
    the interval was made. *)
Theorem X18_CPUPercent_interval
    (CPUTimes : nat → bool → list cpu.CPUTimesStat * option error)
    (interval : Z) (percpu : bool) (g : cpu.state)
    (first second : list cpu.CPUTimesStat) :
  (0 < interval)%Z →
  CPUTimes (cpu.calls g) percpu = (first, None) →
  CPUTimes (S (cpu.calls g)) percpu = (second, None) →
  cpu.CPUPercent CPUTimes interval percpu g
  = if percpu then
      if decide (length second ≤ length first)%nat then
        cpu.Returned
          ((zip_with cpu.calculate first second, None),
           cpu.mkState (cpu.lastCPUTimes g) second (S (S (cpu.calls g)))
             (interval :: cpu.sleeps g))
      else cpu.Panicked
    else
      match first, second with
      | l :: _, t :: rest =>
          cpu.Returned
            ((cpu.calculate l t :: replicate (length rest) 0%float, None),
             cpu.mkState second (cpu.lastPerCPUTimes g) (S (S (cpu.calls g)))
               (interval :: cpu.sleeps g))
      | _, _ => cpu.Panicked
      end.
Proof.
  intros Hi H1 H2. unfold cpu.CPUPercent, cpu.read. rewrite H1.
  assert ((interval >? 0)%Z = true) as -> by lia.
  destruct percpu; simpl; rewrite H2.
  - by rewrite percentages_percpu.
  - by rewrite percentages_total.
Qed.

Lemma X18_CPUPercent_interval_witness :
  cpu.CPUPercent Samples.CPUTimes_one_core 1000000000 false Samples.cpu_state0
  = cpu.Returned
      (([cpu.calculate (Samples.core 10 90) (Samples.core 30 170)], None),
       cpu.mkState [Samples.core 30 170] [] 2 [1000000000%Z]).
Proof.
  apply (X18_CPUPercent_interval Samples.CPUTimes_one_core 1000000000 false
           Samples.cpu_state0 [Samples.core 10 90] [Samples.core 30 170]).
  - reflexivity.
  - reflexivity.
  - reflexivity.
Defined.

(** 20 busy ticks out of 100 elapsed. *)
Example one_core_percent :
  cpu.calculate (Samples.core 10 90) (Samples.core 30 170) = 20%float.
Proof. by vm_compute. Qed.

(** X19. Errors of [CPUTimes]. When the first reading fails, [CPUPercent]
    returns that error with no percentages, sleeps not at all and leaves
    both package variables as they were. When, with a positive interval,
    the second reading fails, it returns that error, but the variable of
    the mode has already been replaced by the first reading. *)
Theorem X19_CPUPercent_errors
    (CPUTimes : nat → bool → list cpu.CPUTimesStat * option error)
    (interval : Z) (percpu : bool) (g : cpu.state)
    (first partial : list cpu.CPUTimesStat) (e : error) :
  (CPUTimes (cpu.calls g) percpu = (partial, Some e) →
   cpu.CPUPercent CPUTimes interval percpu g
   = cpu.Returned
       (([], Some e),
        cpu.mkState (cpu.lastCPUTimes g) (cpu.lastPerCPUTimes g) (S (cpu.calls g))
          (cpu.sleeps g))) ∧
  ((0 < interval)%Z →
   CPUTimes (cpu.calls g) percpu = (first, None) →
   CPUTimes (S (cpu.calls g)) percpu = (partial, Some e) →
   cpu.CPUPercent CPUTimes interval percpu g
   = cpu.Returned
       (([], Some e),
        cpu.mkState
          (if percpu then cpu.lastCPUTimes g else first)
          (if percpu then first else cpu.lastPerCPUTimes g)
          (S (S (cpu.calls g))) (interval :: cpu.sleeps g))).
Proof.
  split.
  - intros H1. unfold cpu.CPUPercent, cpu.read. by rewrite H1.
  - intros Hi H1 H2. unfold cpu.CPUPercent, cpu.read. rewrite H1.
    assert ((interval >? 0)%Z = true) as -> by lia.
    destruct percpu; simpl; by rewrite H2.
Qed.

Lemma X19_CPUPercent_errors_witness :
  cpu.CPUPercent Samples.CPUTimes_fails 1000000000 true Samples.cpu_state0
    = cpu.Returned
        (([], Some "open /proc/stat: no such file or directory"),
         cpu.mkState [] [] 1 []) ∧
  cpu.CPUPercent Samples.CPUTimes_then_fails 1000000000 true Samples.cpu_state0
    = cpu.Returned
        (([], Some "open /proc/stat: no such file or directory"),
         cpu.mkState [] [Samples.core 10 90] 2 [1000000000%Z]).
Proof.
  split.
  - apply (proj1 (X19_CPUPercent_errors Samples.CPUTimes_fails 1000000000 true
                    Samples.cpu_state0 [] []
                    "open /proc/stat: no such file or directory")).
    reflexivity.
  - apply (proj2 (X19_CPUPercent_errors Samples.CPUTimes_then_fails 1000000000 true
                    Samples.cpu_state0 [Samples.core 10 90] []
                    "open /proc/stat: no such file or directory"));
      reflexivity.
Defined.

(** X20. [CPUPercent] with an interval that is not positive makes one
    reading, never sleeps, and compares the reading with the one recorded
    by the previous call or by [init]. In total mode it panics when nothing
    is recorded, as after an [init] whose reading failed with no data; and
    two such calls in a row, the first recording [l :: _] and the second
    reading [t :: rest], make the second return the load between them. *)
Theorem X20_CPUPercent_no_interval
    (CPUTimes : nat → bool → list cpu.CPUTimesStat * option error)
    (interval : Z) (g : cpu.state) (reading : list cpu.CPUTimesStat) :
  (interval ≤ 0)%Z →
  CPUTimes (cpu.calls g) false = (reading, None) →
  cpu.CPUPercent CPUTimes interval false g
    = match cpu.lastCPUTimes g, reading with
      | l :: _, t :: rest =>
          cpu.Returned
            ((cpu.calculate l t :: replicate (length rest) 0%float, None),
             cpu.mkState reading (cpu.lastPerCPUTimes g) (S (cpu.calls g))
               (cpu.sleeps g))
      | _, _ => cpu.Panicked
      end ∧
  (cpu.lastCPUTimes g = [] → cpu.CPUPercent CPUTimes interval false g = cpu.Panicked) ∧
  (∀ l recorded t rest out g1,
     reading = l :: recorded →
     cpu.CPUPercent CPUTimes interval false g = cpu.Returned (out, g1) →
     CPUTimes (cpu.calls g1) false = (t :: rest, None) →
     ∃ g2,
       cpu.CPUPercent CPUTimes interval false g1
       = cpu.Returned
           ((cpu.calculate l t :: replicate (length rest) 0%float, None), g2) ∧
       cpu.lastCPUTimes g2 = t :: rest).
Proof.
  intros Hi H1.
  assert (∀ g' reading',
            CPUTimes (cpu.calls g') false = (reading', None) →
            cpu.CPUPercent CPUTimes interval false g'
            = match cpu.lastCPUTimes g', reading' with
              | l :: _, t :: rest =>
                  cpu.Returned
                    ((cpu.calculate l t :: replicate (length rest) 0%float, None),
                     cpu.mkState reading' (cpu.lastPerCPUTimes g') (S (cpu.calls g'))
                       (cpu.sleeps g'))
              | _, _ => cpu.Panicked
              end) as Hcall.
  { intros g' reading' H. unfold cpu.CPUPercent, cpu.read. rewrite H.
    assert ((interval >? 0)%Z = false) as -> by lia.
    by rewrite percentages_total. }
  split_and!.
  - by apply Hcall.
  - intros Hnil. by rewrite (Hcall _ _ H1), Hnil.
  - intros l recorded t rest out g1 -> Hfirst Hsecond.
    rewrite (Hcall _ _ H1) in Hfirst.
    destruct (cpu.lastCPUTimes g) as [|l0 ?]; [done|]. simplify_eq.
    rewrite (Hcall _ _ Hsecond). simpl. by eexists.
Qed.

Lemma X20_CPUPercent_no_interval_witness :
  cpu.CPUPercent Samples.CPUTimes_one_core 0 false
    (cpu.init Samples.CPUTimes_one_core Samples.cpu_state0)
  = cpu.Returned
      (([cpu.calculate (Samples.core 10 90) (Samples.core 30 170)], None),
       cpu.mkState [Samples.core 30 170] [Samples.core 30 170] 3 []).
Proof.
  apply (X20_CPUPercent_no_interval Samples.CPUTimes_one_core 0
           (cpu.init Samples.CPUTimes_one_core Samples.cpu_state0)
           [Samples.core 30 170]).
  - done.
  - reflexivity.
Defined.

(** After an [init] that could read nothing, the first call without an
    interval panics. *)
Example CPUPercent_after_failed_init :
  cpu.CPUPercent Samples.CPUTimes_one_core 0 false
    (cpu.init Samples.CPUTimes_fails Samples.cpu_state0)
  = cpu.Panicked.
Proof. reflexivity. Qed.

(** * Package procfs *)

(** X21. The reader "ProcUptime" through the agent: once [init] has
    registered it, a reader config naming it never meets a construction
    error; its output is the serialization of the uptime read, or, when the
    reading fails, the serialization of the one-field map with "Error"
    bound to the message, and the executor returns no error of its own. A
    [Run] that fails leaves the receiver, hence what [ToJson] serializes,
    as it was. *)
Theorem X21_ProcUptime_through_agent {Uptime : Type} (Uptime_value : Uptime → any)
    (ReadUptime : string → result Uptime) (w : World) (a : Agent) (config : Config)
    (before : gmap string (unit → readers.IReader)) :
  procfs.init Uptime_value ReadUptime (json_Marshal w) before
    = Some (readerConstructors w) →
  in_process_reader config →
  GoStruct config = "ProcUptime" →
  Run_dispatch w a config
    = match ReadUptime "/proc/uptime" with
      | Ok uptime => json_Marshal w (Uptime_value uptime)
      | Err e => json_Marshal w (AMap {["Error" := AStr e]})
      end ∧
  (∀ p e, ReadUptime "/proc/uptime" = Err e →
          procfs.Run ReadUptime p = (p, Some e)).
Proof.
  intros Hinit Hd Hg. split.
  - unfold procfs.init, procfs.Register in Hinit.
    destruct (before !! "ProcUptime"); [done|]. simplify_eq.
    rewrite (dispatch_in_process_reader _ _ _ Hd).
    unfold runGoStructReader, initGoStructReader, readers.NewGoStructByConfig.
    rewrite <- Hinit, Hg, lookup_insert_eq.
    destruct (ReadUptime "/proc/uptime") as [uptime|e] eqn:Hr.
    + unfold runGoStruct, readers.Run, procfs.NewProcUptime. cbn.
      unfold procfs.Run. by rewrite Hr.
    + erewrite runGoStruct_failing; [by rewrite error_payload_value|].
      unfold readers.Run, procfs.NewProcUptime. cbn.
      unfold procfs.Run. by rewrite Hr.
  - intros p e He. unfold procfs.Run. by rewrite He.
Qed.

Lemma X21_ProcUptime_through_agent_witness :
  Run_dispatch (Samples.world_uptime Samples.ReadUptime_fails) Demo.agent0
    Samples.reader_uptime
  = (Demo.marshal
       (AMap {["Error" := AStr "open /proc/uptime: no such file or directory"]}),
     None).
Proof.
  apply (X21_ProcUptime_through_agent (λ v : any, v) Samples.ReadUptime_fails
           (Samples.world_uptime Samples.ReadUptime_fails) Demo.agent0
           Samples.reader_uptime ∅).
  - reflexivity.
  - split_and!; [reflexivity | discriminate | reflexivity].
  - reflexivity.
Defined.

(** The uptime is read and persisted under "/r/uptime". *)
Example uptime_persisted :
  (Run (Samples.world_uptime Samples.ReadUptime_ok) Demo.agent0 Samples.reader_uptime).1
    = (Demo.marshal Samples.uptime_value, None) ∧
  dom (Db (Run (Samples.world_uptime Samples.ReadUptime_ok) Demo.agent0
             Samples.reader_uptime).2)
    = ({["/r/uptime"]} : gset string).
Proof. split; by vm_compute. Qed.

(** * Package executors *)

Local Open Scope list_scope.

Lemma succeeded_cons (path : string) (ok : bool) (made : list (string * bool)) :
  succeeded ((path, ok) :: made)
  = if ok then path :: succeeded made else succeeded made.
Proof.
  unfold succeeded. rewrite filter_cons.
  destruct ok; [rewrite decide_True by done | rewrite decide_False by done]; done.
Qed.

Lemma failed_cons (path : string) (ok : bool) (made : list (string * bool)) :
  failed ((path, ok) :: made) = if ok then failed made else path :: failed made.
Proof.
  unfold failed. rewrite filter_cons.
  destruct ok; [rewrite decide_False by done | rewrite decide_True by done]; done.
Qed.

Lemma succeeded_app (made1 made2 : list (string * bool)) :
  succeeded (made1 ++ made2) = succeeded made1 ++ succeeded made2.
Proof. unfold succeeded. by rewrite filter_app, fmap_app. Qed.

Lemma failed_app (made1 made2 : list (string * bool)) :
  failed (made1 ++ made2) = failed made1 ++ failed made2.
Proof. unfold failed. by rewrite filter_app, fmap_app. Qed.


Section DiskCleaner_facts.

Context {FS : Type}.
Context (ExpandTildeAndEnv : string → string).
Context (filepath_Glob : FS → string → list string * option error).
Context (os_RemoveAll : FS → string → FS * option error).

Abbreviation over_globs := (executors.over_globs ExpandTildeAndEnv filepath_Glob os_RemoveAll).
Abbreviation removals := (executors.removals ExpandTildeAndEnv filepath_Glob os_RemoveAll).
Abbreviation Run := (executors.Run ExpandTildeAndEnv filepath_Glob os_RemoveAll).

(** The inner loop appends each path to one of the two lists, in order. *)
Lemma remove_matches_spec (matches : list string) (fs : FS)
    (successOutput failOutput : list string) :
  executors.remove_matches os_RemoveAll matches fs successOutput failOutput
  = ((executors.removals_of_matches os_RemoveAll matches fs).1,
     successOutput ++ succeeded (executors.removals_of_matches os_RemoveAll matches fs).2,
     failOutput ++ failed (executors.removals_of_matches os_RemoveAll matches fs).2).
Proof.
  unfold executors.remove_matches.
  revert fs successOutput failOutput.
  induction matches as [|fullpath matches IH]; intros fs successOutput failOutput.
  { simpl. unfold succeeded, failed. simpl. by rewrite !app_nil_r. }
  cbn [foldl executors.removals_of_matches].
  destruct (os_RemoveAll fs fullpath) as [fs1 [e|]]; rewrite IH;
    destruct (executors.removals_of_matches os_RemoveAll matches fs1) as [fs2 made];
    simpl; rewrite succeeded_cons, failed_cons; simpl;
    by rewrite <- ?app_assoc.
Qed.

(** The outer loop over a prefix of patterns that are all strings and well
    formed, then the rest. *)
Lemma over_globs_app (pre rest : list any) (fs fs1 : FS) (made : list (string * bool))
    (successOutput failOutput : list string) :
  removals pre fs = Some (fs1, made) →
  over_globs (pre ++ rest) fs successOutput failOutput
  = over_globs rest fs1 (successOutput ++ succeeded made) (failOutput ++ failed made).
Proof.
  revert fs fs1 made successOutput failOutput.
  induction pre as [|globInterface pre IH]; intros fs fs1 made successOutput failOutput.
  { intros [= <- <-]. unfold succeeded, failed. simpl. by rewrite !app_nil_r. }
  cbn [app executors.over_globs executors.removals].
  destruct globInterface as [| | | |glob| | |]; try done.
  destruct (filepath_Glob fs (ExpandTildeAndEnv glob)) as [matches [e|]]; [done|].
  rewrite remove_matches_spec.
  destruct (executors.removals_of_matches os_RemoveAll matches fs) as [fs2 made1].
  simpl. destruct (removals pre fs2) as [[fs3 made2]|] eqn:Hpre; [|done].
  intros [= <- <-]. rewrite (IH _ _ _ _ _ Hpre).
  by rewrite succeeded_app, failed_app, !app_assoc.
Qed.


(** X23. [DiskCleaner.Run] with its gate open stops at the first pattern
    that is malformed or not a string, after the patterns before it have
    been processed: the files they matched are already removed, but neither
    "Success" nor "Failure" is set and nothing is logged. For a malformed
    pattern it returns the error of [filepath.Glob] and sets "Error" to its
    message and "ExitStatus" to 1; for a pattern that is not a string it
    panics. The patterns after it are never looked at. *)
Theorem X23_DiskCleaner_stops (dc : executors.DiskCleaner) (fs fs1 : FS)
    (pre post : list any) (stop : any) (made : list (string * bool)) :
  gate_open (executors.base dc) = true →
  executors.Globs dc = pre ++ stop :: post →
  removals pre fs = Some (fs1, made) →
  (∀ bad partial e,
     stop = AStr bad →
     filepath_Glob fs1 (ExpandTildeAndEnv bad) = (partial, Some e) →
     Run dc fs
     = (executors.Done (Some e),
        executors.with_Data dc
          (<["ExitStatus" := executors.VInt 1]>
             (<["Error" := executors.VString e]>
                (<["Conditions" := executors.VAny (executors.Conditions (executors.base dc))]>
                   (executors.Data dc)))),
        fs1, [])) ∧
  ((∀ glob, stop ≠ AStr glob) →
   Run dc fs
   = (executors.Panic,
      executors.with_Data dc
        (<["Conditions" := executors.VAny (executors.Conditions (executors.base dc))]>
           (executors.Data dc)),
      fs1, [])).
Proof.
  intros Hgate Hglobs Hremovals. unfold executors.Run.
  unfold gate_open in Hgate. rewrite Hgate, Hglobs.
  rewrite (over_globs_app _ _ _ _ _ [] [] Hremovals). split.
  - intros bad partial e -> Hbad. cbn [executors.over_globs]. by rewrite Hbad.
  - intros Hstop. destruct stop; try done. by destruct (Hstop s).
Qed.

(** The gate of [DiskCleaner.Run]: unless the condition is met, the
    low threshold is exceeded and the high threshold is not, [Run] removes
    nothing, whatever [Globs] holds: it returns nil, leaves the file system
    as it is, writes no log entry and only sets "Conditions". In particular
    nothing is cleaned once the high threshold is exceeded. *)
Lemma DiskCleaner_gate_closed (dc : executors.DiskCleaner) (fs : FS) :
  executors.IsConditionMet (executors.base dc) = false ∨
  executors.LowThresholdExceeded (executors.base dc) = false ∨
  executors.HighThresholdExceeded (executors.base dc) = true →
  Run dc fs
  = (executors.Done None,
     executors.with_Data dc
       (<["Conditions" := executors.VAny (executors.Conditions (executors.base dc))]>
          (executors.Data dc)),
     fs, []).
Proof.
  unfold executors.Run. intros [-> | [-> | ->]]; [done|..]; by rewrite ?andb_false_r.
Qed.

End DiskCleaner_facts.


Lemma X23_DiskCleaner_stops_witness :
  let dc := Samples.cleaner Samples.base_open [AStr "/tmp/a"; AStr "["; ABool true] in
  executors.Run (λ s, s) Samples.toy_Glob Samples.toy_RemoveAll dc Samples.toy_fs
  = (executors.Done (Some "syntax error in pattern"),
     executors.with_Data dc
       (<["ExitStatus" := executors.VInt 1]>
          (<["Error" := executors.VString "syntax error in pattern"]>
             (<["Conditions" := executors.VAny ANil]> ∅))),
     ["/tmp/keep/b.log"; "/var/c.log"], []).
Proof.
  apply (proj1 (X23_DiskCleaner_stops (λ s, s) Samples.toy_Glob Samples.toy_RemoveAll
                  (Samples.cleaner Samples.base_open [AStr "/tmp/a"; AStr "["; ABool true])
                  Samples.toy_fs ["/tmp/keep/b.log"; "/var/c.log"]
                  [AStr "/tmp/a"] [ABool true] (AStr "[")
                  [("/tmp/a.log", true)] eq_refl eq_refl eq_refl)
           "[" []).
  - reflexivity.
  - reflexivity.
Defined.

(** With the high threshold exceeded nothing is removed, and the pattern
    that is not a string is never reached. *)
Example DiskCleaner_gate_closed_high :
  let dc := Samples.cleaner Samples.base_high [AStr "/tmp"; ABool true] in
  executors.Run (λ s, s) Samples.toy_Glob Samples.toy_RemoveAll dc Samples.toy_fs
  = (executors.Done None,
     executors.with_Data dc (<["Conditions" := executors.VAny ANil]> ∅),
     Samples.toy_fs, []).
Proof.
  apply (DiskCleaner_gate_closed (λ s, s) Samples.toy_Glob Samples.toy_RemoveAll
           (Samples.cleaner Samples.base_high [AStr "/tmp"; ABool true]) Samples.toy_fs).
  right; right. reflexivity.
Qed.

(** A pattern that is not a string, after one that matched a file. *)
Example DiskCleaner_panics :
  (executors.Run (λ s, s) Samples.toy_Glob Samples.toy_RemoveAll
     (Samples.cleaner Samples.base_open [AStr "/tmp/a"; ABool true]) Samples.toy_fs).1.2
  = ["/tmp/keep/b.log"; "/var/c.log"] ∧
  (executors.Run (λ s, s) Samples.toy_Glob Samples.toy_RemoveAll
     (Samples.cleaner Samples.base_open [AStr "/tmp/a"; ABool true]) Samples.toy_fs).1.1.1
  = executors.Panic.
Proof. split; reflexivity. Qed.
